(** * Koa chat assistant: the reply route and the chat page

    A shallow embedding of the two TypeScript sources of the repository,

      - [app/api/chat/route.ts]  (the [POST] handler: retrieval, prompt
        assembly, generation, JSON recovery), and
      - [app/page.tsx]           (the [sendMessage] interaction of the chat
        page and its React state),

    followed by the properties of the specification proved about them.

    JavaScript strings are carried as their UTF-8 bytes ([string]); thrown
    values, promises that reject and [try]/[catch]/[finally] are explicit. *)

From Stdlib Require Import String Ascii List Bool ZArith QArith Lia.
From Stdlib Require Import Sorted.
Import ListNotations.
Close Scope Q_scope.
Local Open Scope string_scope.
Local Open Scope list_scope.
Set Warnings "-register-all".

(* ===================================================================== *)
(** ** JavaScript values and the built-ins the sources use *)
(* ===================================================================== *)

Module JS.

(** A value as [JSON.parse] / [res.json()] produce it.  An object keeps its
    properties in enumeration order.  A number is a double: [JNum q] is the
    finite double equal to the rational [q] (the sign of zero is not kept),
    [JInfinity] is the infinity a literal too large for a double is read
    as. *)
Inductive json : Type :=
| JNull
| JBool (b : bool)
| JNum (q : Q)
| JInfinity (negative : bool)
| JStr (s : string)
| JArr (items : list json)
| JObj (props : list (string * json)).

(** [JSON.parse(JSON.stringify(v))]: a value as the reader of a JSON body
    gets it.  JSON has no notation for the infinities and [JSON.stringify]
    writes [null] in their place; every other value is written so that it
    reads back as it was (strings escaped and unescaped, finite doubles by
    digits that identify them, members in enumeration order). *)
Fixpoint as_json (v : json) : json :=
  match v with
  | JInfinity _ => JNull
  | JArr items => JArr (map as_json items)
  | JObj props => JObj (map (fun kv => (fst kv, as_json (snd kv))) props)
  | _ => v
  end.

(** No number anywhere in the value is an infinity. *)
Fixpoint all_finite (v : json) : bool :=
  match v with
  | JInfinity _ => false
  | JArr items => forallb all_finite items
  | JObj props => forallb (fun kv => all_finite (snd kv)) props
  | _ => true
  end.

(** One line feed, the character the sources write [\n]. *)
Definition nl : string := String (ascii_of_nat 10) EmptyString.

(** [!s] on a string: only the empty string is falsy. *)
Definition falsy (s : string) : bool :=
  match s with EmptyString => true | String _ _ => false end.

(** [a || b] on strings. *)
Definition or_else (a b : string) : string := if falsy a then b else a.

(** Own-property lookup in an object's property list. *)
Fixpoint lookup (k : string) (props : list (string * json)) : option json :=
  match props with
  | [] => None
  | (k', v) :: rest => if String.eqb k k' then Some v else lookup k rest
  end.

(** [data?.k] on a parsed JSON value; [None] is [undefined].  Only objects
    carry the properties the page asks for ([message], [content]): on
    [null] the optional chain short-circuits, and arrays, strings, numbers
    and booleans have no such property on their prototypes. *)
Definition opt_get (data : json) (k : string) : option json :=
  match data with
  | JObj props => lookup k props
  | _ => None
  end.

(** [a ?? b]: the right operand replaces [undefined] and [null] only. *)
Definition nullish_or (a : option json) (b : option json) : option json :=
  match a with
  | None | Some JNull => b
  | Some v => Some v
  end.

(** [arr.join(sep)] on an array of strings. *)
Fixpoint join (sep : string) (parts : list string) : string :=
  match parts with
  | [] => ""
  | [p] => p
  | p :: rest => p ++ sep ++ join sep rest
  end.

(** [vals.filter(v => typeof v === "string")], with the survivors typed. *)
Fixpoint filter_strings (vals : list json) : list string :=
  match vals with
  | [] => []
  | JStr s :: rest => s :: filter_strings rest
  | _ :: rest => filter_strings rest
  end.

(** [texts.filter(Boolean)] on strings: drops the empty ones. *)
Definition filter_Boolean (texts : list string) : list string :=
  filter (fun t => negb (falsy t)) texts.

(** *** [String.prototype.trim]

    ECMAScript strips WhiteSpace and LineTerminator code points from both
    ends.  On UTF-8 bytes these are the one-byte controls and space, and
    the two- and three-byte encodings of U+00A0, U+1680, U+2000..U+200A,
    U+2028, U+2029, U+202F, U+205F, U+3000 and U+FEFF. *)

Definition bytes (s : string) : list N :=
  map N_of_ascii (list_ascii_of_string s).

Definition of_bytes (l : list N) : string :=
  string_of_list_ascii (map ascii_of_N l).

Definition ws1 (a : N) : bool :=
  (((9 <=? a) && (a <=? 13)) || (a =? 32))%N.

Definition ws3 (a b c : N) : bool :=
  match a, b with
  | 225, 154 => c =? 128
  | 226, 128 => ((128 <=? c) && (c <=? 138)) || (c =? 168) || (c =? 169) || (c =? 175)
  | 226, 129 => c =? 159
  | 227, 128 => c =? 128
  | 239, 187 => c =? 191
  | _, _ => false
  end%N.

(** Number of bytes of the white-space character the list starts with
    (0 when it starts with none). *)
Definition ws_head (l : list N) : nat :=
  match l with
  | a :: rest =>
      if ws1 a then 1
      else match rest with
           | b :: c :: _ =>
               if ((a =? 194) && (b =? 160))%N then 2
               else if ws3 a b c then 3 else 0
           | [b] => if ((a =? 194) && (b =? 160))%N then 2 else 0
           | [] => 0
           end
  | [] => 0
  end.

(** The same from the end, on the reversed byte list. *)
Definition ws_last (r : list N) : nat :=
  match r with
  | c :: rest =>
      if ws1 c then 1
      else match rest with
           | b :: a :: _ =>
               if ((b =? 194) && (c =? 160))%N then 2
               else if ws3 a b c then 3 else 0
           | [b] => if ((b =? 194) && (c =? 160))%N then 2 else 0
           | [] => 0
           end
  | [] => 0
  end.

Fixpoint strip (head : list N -> nat) (fuel : nat) (l : list N) : list N :=
  match fuel with
  | O => l
  | S fuel' =>
      match head l with
      | O => l
      | k => strip head fuel' (skipn k l)
      end
  end.

Definition trim (s : string) : string :=
  let l := bytes s in
  let l1 := strip ws_head (length l) l in
  of_bytes (rev (strip ws_last (length l1) (rev l1))).

End JS.

(* ===================================================================== *)
(** ** A reference reading of the JSON grammar *)
(* ===================================================================== *)

(** [JSON.parse] is a platform built-in.  The route is embedded over an
    arbitrary parser (a variable of the section below); the executable
    reader here follows the JSON grammar (RFC 8259, as ECMAScript adopts it)
    and is the instance at which the properties are run on concrete texts.
    A number literal is read as the double nearest to the decimal it
    writes (ties to even), an infinity when it is too large; the members
    of an object are kept in the order JavaScript enumerates them. *)
Module JSONRef.
Import JS.

Definition is_ws (c : N) : bool :=
  ((c =? 32) || (c =? 9) || (c =? 10) || (c =? 13))%N.

Fixpoint skip_ws (l : list N) : list N :=
  match l with
  | c :: r => if is_ws c then skip_ws r else l
  | [] => []
  end.

Definition is_digit (c : N) : bool := ((48 <=? c) && (c <=? 57))%N.

Definition hex (c : N) : option N :=
  if is_digit c then Some (c - 48)%N
  else if ((65 <=? c) && (c <=? 70))%N then Some (c - 55)%N
  else if ((97 <=? c) && (c <=? 102))%N then Some (c - 87)%N
  else None.

Definition hex4 (a b c d : N) : option N :=
  match hex a, hex b, hex c, hex d with
  | Some x, Some y, Some z, Some w => Some (((x * 16 + y) * 16 + z) * 16 + w)%N
  | _, _, _, _ => None
  end.

(** UTF-8 bytes of a code point, in reverse order (for an accumulator). *)
Definition utf8_rev (cp : N) : list N :=
  (if cp <? 128 then [cp]
   else if cp <? 2048 then [128 + cp mod 64; 192 + cp / 64]
   else if cp <? 65536 then
     [128 + cp mod 64; 128 + (cp / 64) mod 64; 224 + cp / 4096]
   else
     [128 + cp mod 64; 128 + (cp / 64) mod 64; 128 + (cp / 4096) mod 64;
      240 + cp / 262144])%N.

Definition is_high (u : N) : bool := ((55296 <=? u) && (u <=? 56319))%N.
Definition is_low (u : N) : bool := ((56320 <=? u) && (u <=? 57343))%N.

(** Flushes a high surrogate that no low surrogate followed. *)
Definition flush (hi : option N) (acc : list N) : list N :=
  match hi with
  | Some h => utf8_rev h ++ acc
  | None => acc
  end.

(** The characters of a string literal after its opening quote; [hi] is a
    high surrogate read by the preceding [\u] escape. *)
Fixpoint parse_chars (l : list N) (hi : option N) (acc : list N)
  : option (string * list N) :=
  match l with
  | [] => None
  | 34%N :: r => Some (of_bytes (rev (flush hi acc)), r)
  | 92%N :: l1 =>
      match l1 with
      | 117%N :: a :: b :: c :: d :: r =>
          match hex4 a b c d with
          | None => None
          | Some u =>
              match hi with
              | Some h =>
                  if is_low u
                  then parse_chars r None
                         (utf8_rev (65536 + (h - 55296) * 1024 + (u - 56320))%N ++ acc)
                  else if is_high u then parse_chars r (Some u) (utf8_rev h ++ acc)
                  else parse_chars r None (utf8_rev u ++ utf8_rev h ++ acc)
              | None =>
                  if is_high u then parse_chars r (Some u) acc
                  else parse_chars r None (utf8_rev u ++ acc)
              end
          end
      | e :: r =>
          let plain (c : N) := parse_chars r None (c :: flush hi acc) in
          match e with
          | 34 => plain 34
          | 92 => plain 92
          | 47 => plain 47
          | 98 => plain 8
          | 102 => plain 12
          | 110 => plain 10
          | 114 => plain 13
          | 116 => plain 9
          | _ => None
          end%N
      | [] => None
      end
  | c :: r => if (c <? 32)%N then None else parse_chars r None (c :: flush hi acc)
  end.

(** A maximal run of decimal digits: its value, its length, the rest. *)
Fixpoint digits (l : list N) (v : Z) (n : nat) : Z * nat * list N :=
  match l with
  | c :: r => if is_digit c then digits r (v * 10 + Z.of_N (c - 48))%Z (S n)
              else (v, n, l)
  | [] => (v, n, [])
  end.

(** The double nearest to the magnitude [n / d], with the sign [neg]:
    53 significant bits, exponents from -1022 (below, the spacing of the
    subnormals, 2^-1074) to 1023 (above, infinity). *)
Definition binary64 (neg : bool) (n : Z) (d : positive) : json :=
  if (n <=? 0)%Z then JNum (Qmake 0 1)
  else
    let e0 := (Z.log2 n - Z.log2 (Zpos d))%Z in
    let reaches :=
      if (0 <=? e0)%Z then (2 ^ e0 * Zpos d <=? n)%Z
      else (Zpos d <=? n * 2 ^ (- e0))%Z in
    let e := if reaches then e0 else (e0 - 1)%Z in
    let k := (Z.max e (-1022) - 52)%Z in
    let num := if (0 <=? k)%Z then n else (n * 2 ^ (- k))%Z in
    let den := if (0 <=? k)%Z then (Zpos d * 2 ^ k)%Z else Zpos d in
    let q := (num / den)%Z in
    let r := (num mod den)%Z in
    let m :=
      if (2 * r <? den)%Z then q
      else if (den <? 2 * r)%Z then (q + 1)%Z
      else if Z.even q then q else (q + 1)%Z in
    if (0 <=? k)%Z && (2 ^ 1024 <=? m * 2 ^ k)%Z then JInfinity neg
    else
      let m' := if neg then (- m)%Z else m in
      JNum (Qred (if (0 <=? k)%Z then Qmake (m' * 2 ^ k) 1
                  else Qmake m' (Z.to_pos (2 ^ (- k))))).

Definition parse_number (l : list N) : option (json * list N) :=
  let '(neg, l0) := match l with 45%N :: r => (true, r) | _ => (false, l) end in
  let '(ip, ilen, l1) := digits l0 0%Z 0 in
  let leading_zero :=
    match l0 with 48%N :: _ => (1 <? ilen)%nat | _ => false end in
  if (ilen =? 0)%nat || leading_zero then None else
  let frac :=
    match l1 with
    | 46%N :: r => let '(fp, flen, l2) := digits r ip 0 in
                 if (flen =? 0)%nat then None else Some (fp, flen, l2)
    | _ => Some (ip, 0, l1)
    end in
  match frac with
  | None => None
  | Some (m, flen, l2) =>
      let expo :=
        match l2 with
        | (69 | 101)%N :: r =>
            let '(eneg, r') :=
              match r with
              | 45%N :: r1 => (true, r1)
              | 43%N :: r1 => (false, r1)
              | _ => (false, r)
              end in
            let '(ev, elen, l3) := digits r' 0%Z 0 in
            if (elen =? 0)%nat then None
            else Some (if eneg then (- ev)%Z else ev, l3)
        | _ => Some (0%Z, l2)
        end in
      match expo with
      | None => None
      | Some (e, l3) =>
          let sc := (e - Z.of_nat flen)%Z in
          let v := if (0 <=? sc)%Z then binary64 neg (m * 10 ^ sc) 1
                   else binary64 neg m (Z.to_pos (10 ^ (- sc))) in
          Some (v, l3)
      end
  end.

(** The array index a key writes, if it is one: canonical decimal digits
    of a number below 2^32 - 1. *)
Definition array_index (k : string) : option N :=
  match bytes k with
  | [] => None
  | [48%N] => Some 0%N
  | 48%N :: _ => None
  | l =>
      if forallb is_digit l then
        let n := fold_left (fun a c => (a * 10 + (c - 48))%N) l 0%N in
        if (n <? 4294967295)%N then Some n else None
      else None
  end.

(** Enumeration order of the keys of an object: array indices first, in
    ascending order, then the other keys in the order they were added. *)
Definition goes_before (k k' : string) : bool :=
  match array_index k, array_index k' with
  | Some i, Some j => (i <? j)%N
  | Some _, None => true
  | None, _ => false
  end.

(** [JSON.parse] keeps the last value of a repeated key, at the place the
    key has in the enumeration. *)
Fixpoint set_prop (k : string) (v : json) (props : list (string * json))
  : list (string * json) :=
  match props with
  | [] => [(k, v)]
  | (k', v') :: rest =>
      if String.eqb k k' then (k, v) :: rest
      else if goes_before k k' then (k, v) :: (k', v') :: rest
      else (k', v') :: set_prop k v rest
  end.

Fixpoint parse_value (fuel : nat) (l : list N) : option (json * list N) :=
  match fuel with
  | O => None
  | S f =>
      match skip_ws l with
      | 110%N :: 117%N :: 108%N :: 108%N :: r => Some (JNull, r)
      | 116%N :: 114%N :: 117%N :: 101%N :: r => Some (JBool true, r)
      | 102%N :: 97%N :: 108%N :: 115%N :: 101%N :: r => Some (JBool false, r)
      | 34%N :: r =>
          match parse_chars r None [] with
          | Some (s, r') => Some (JStr s, r')
          | None => None
          end
      | 91%N :: r =>
          match skip_ws r with
          | 93%N :: r' => Some (JArr [], r')
          | _ => parse_items f r []
          end
      | 123%N :: r =>
          match skip_ws r with
          | 125%N :: r' => Some (JObj [], r')
          | _ => parse_members f r []
          end
      | l' => parse_number l'
      end
  end

with parse_items (fuel : nat) (l : list N) (acc : list json)
  : option (json * list N) :=
  match fuel with
  | O => None
  | S f =>
      match parse_value f l with
      | None => None
      | Some (v, r) =>
          match skip_ws r with
          | 44%N :: r' => parse_items f r' (v :: acc)
          | 93%N :: r' => Some (JArr (rev (v :: acc)), r')
          | _ => None
          end
      end
  end

with parse_members (fuel : nat) (l : list N) (acc : list (string * json))
  : option (json * list N) :=
  match fuel with
  | O => None
  | S f =>
      match skip_ws l with
      | 34%N :: r =>
          match parse_chars r None [] with
          | None => None
          | Some (k, r1) =>
              match skip_ws r1 with
              | 58%N :: r2 =>
                  match parse_value f r2 with
                  | None => None
                  | Some (v, r3) =>
                      match skip_ws r3 with
                      | 44%N :: r4 => parse_members f r4 (set_prop k v acc)
                      | 125%N :: r4 => Some (JObj (set_prop k v acc), r4)
                      | _ => None
                      end
                  end
              | _ => None
              end
          end
      | _ => None
      end
  end.

(** [JSON.parse(text)]; [None] is the [SyntaxError] it throws. *)
Definition JSON_parse (text : string) : option json :=
  let l := bytes text in
  match parse_value (2 * length l + 2) l with
  | Some (v, r) => match skip_ws r with [] => Some v | _ => None end
  | None => None
  end.

End JSONRef.

(* ===================================================================== *)
(** ** The chat page: [app/page.tsx] *)
(* ===================================================================== *)

Module Page.
Import JS.

Inductive Role : Type := user | assistant.

(** [interface ChatMessage].  The annotation [content: string] is not
    checked at run time: an assistant turn carries whatever value the
    response body held, so the content is a value. *)
Record ChatMessage : Type := {
  id : Z;
  role : Role;
  content : json;
  withActivityCard : option bool
}.

Definition initialAssistantMessage : ChatMessage := {|
  id := 1;
  role := assistant;
  content :=
    JStr "Hey, I'm Koa 🐨. Tell me how you're feeling in a line or two, and I'll suggest a tiny 1–2 minute practice to help you reset.";
  withActivityCard := Some true
|}.

(** The texts of [quickMoods], each sent through [handleQuickMood]. *)
Definition quickMoods : list string :=
  [ "I'm feeling stressed and overwhelmed.";
    "I'm tired and low on energy.";
    "I can't focus on my work right now.";
    "I'm okay, just want a gentle check-in." ].

(** The three [useState] cells of [HomePage]. *)
Record State : Type := {
  messages : list ChatMessage;
  input : string;
  isLoading : bool
}.

Definition initialState : State := {|
  messages := [initialAssistantMessage];
  input := "";
  isLoading := false
|}.

(** What the component's code does to the outside: state setters (the
    message setter always in its functional form [prev => ...]) and the
    console. *)
Inductive Failure : Type :=
| NetworkFailure (detail : string)   (* [fetch] rejected *)
| RequestFailed (status : Z)         (* [new Error(`Request failed with status ...`)] *)
| BodyUnreadable.                    (* [res.json()] rejected *)

Inductive Effect : Type :=
| SetMessages (f : list ChatMessage -> list ChatMessage)
| SetInput (value : string)
| SetIsLoading (value : bool)
| ConsoleError (err : Failure).

Definition apply (st : State) (e : Effect) : State :=
  match e with
  | SetMessages f =>
      {| messages := f (messages st); input := input st; isLoading := isLoading st |}
  | SetInput v =>
      {| messages := messages st; input := v; isLoading := isLoading st |}
  | SetIsLoading b =>
      {| messages := messages st; input := input st; isLoading := b |}
  | ConsoleError _ => st
  end.

Definition run (effects : list Effect) (st : State) : State :=
  fold_left apply effects st.

(** How the [fetch] of one request settles.  [body = None] is a body that
    [res.json()] cannot read. *)
Inductive FetchResult : Type :=
| Rejected (detail : string)
| Responded (status : Z) (body : option json).

(** [res.ok] *)
Definition ok (status : Z) : bool := ((200 <=? status) && (status <=? 299))%Z.

(** One entry of [payloadMessages]. *)
Record PayloadMessage : Type := {
  payload_role : Role;
  payload_content : json
}.

Definition to_payload (m : ChatMessage) : PayloadMessage :=
  {| payload_role := role m; payload_content := content m |}.

Definition placeholder : string := "Here’s a small practice you can try.".

(** [data?.message ?? data?.content ?? "Here’s a small practice ..."] *)
Definition assistantText (data : json) : json :=
  match nullish_or (nullish_or (opt_get data "message") (opt_get data "content"))
                   (Some (JStr placeholder)) with
  | Some v => v
  | None => JStr placeholder
  end.

Definition userMsg (now : Z) (trimmed : string) : ChatMessage :=
  {| id := now; role := user; content := JStr trimmed; withActivityCard := None |}.

Definition assistantMsg (now : Z) (data : json) : ChatMessage :=
  {| id := now + 1; role := assistant; content := assistantText data;
     withActivityCard := Some true |}.

Definition errorMsg (now : Z) : ChatMessage :=
  {| id := now + 2; role := assistant;
     content :=
       JStr "Hmm, something went wrong while talking to my brain in the cloud. Can you try again in a moment? 💭";
     withActivityCard := None |}.

(** The body of the [try] after the request settled: either it throws, or
    it reaches [setMessages(prev => [...prev, assistantMsg])]. *)
Definition try_block (res : FetchResult) (now : Z) : Failure + list Effect :=
  match res with
  | Rejected detail => inl (NetworkFailure detail)
  | Responded status body =>
      if negb (ok status) then inl (RequestFailed status)
      else match body with
           | None => inl BodyUnreadable
           | Some data => inr [SetMessages (fun prev => prev ++ [assistantMsg now data])]
           end
  end.

Definition catch_block (err : Failure) (now : Z) : list Effect :=
  [ConsoleError err; SetMessages (fun prev => prev ++ [errorMsg now])].

Definition finally_block : list Effect := [SetIsLoading false].

(** A call of [sendMessage] that passed its guard: the effects it performs
    before it suspends on [fetch], the request body it sends, and what it
    does once the request has settled ([now] is [Date.now()] read there). *)
Record Sent : Type := {
  before_await : list Effect;
  payloadMessages : list PayloadMessage;
  after_await : FetchResult -> Z -> list Effect
}.

(** [sendMessage(text)].  [messages] and [isLoading] are the values the
    closure captured at the render it was created in; [now] is [Date.now()].
    [None] is the early [return]. *)
Definition sendMessage (messages : list ChatMessage) (isLoading : bool)
    (text : string) (now : Z) : option Sent :=
  let trimmed := trim text in
  if falsy trimmed || isLoading then None
  else
    let userMsg := userMsg now trimmed in
    let history := messages ++ [userMsg] in
    Some {|
      before_await :=
        [SetMessages (fun prev => prev ++ [userMsg]); SetInput ""; SetIsLoading true];
      payloadMessages := map to_payload history;
      after_await := fun res now' =>
        match try_block res now' with
        | inr effects => effects
        | inl err => catch_block err now'
        end ++ finally_block
    |}.

(** The page as an event-driven machine: the rendered state and the calls
    of [sendMessage] suspended on their request. *)
Record Page : Type := {
  state : State;
  suspended : list (FetchResult -> Z -> list Effect)
}.

Definition initialPage : Page := {| state := initialState; suspended := [] |}.

Inductive Event : Type :=
| Send (now : Z)                        (* the form is submitted: [handleSend] *)
| QuickMood (text : string) (now : Z)   (* a mood chip is clicked: [handleQuickMood] *)
| Change (value : string)               (* [onChange] of the input *)
| Settle (res : FetchResult) (now : Z). (* the oldest request settles *)

(** An event is handled on the page as last rendered: the closure of
    [sendMessage] holds the current [messages] and [isLoading]. *)
Definition start (p : Page) (text : string) (now : Z) : Page :=
  match sendMessage (messages (state p)) (isLoading (state p)) text now with
  | None => p
  | Some sent =>
      {| state := run (before_await sent) (state p);
         suspended := suspended p ++ [after_await sent] |}
  end.

Definition step (p : Page) (ev : Event) : Page :=
  match ev with
  | Send now => start p (input (state p)) now
  | QuickMood text now => start p text now
  | Change value => {| state := run [SetInput value] (state p); suspended := suspended p |}
  | Settle res now =>
      match suspended p with
      | [] => p
      | k :: rest => {| state := run (k res now) (state p); suspended := rest |}
      end
  end.

Definition steps (p : Page) (evs : list Event) : Page := fold_left step evs p.

End Page.

(* ===================================================================== *)
(** ** The reply route: [app/api/chat/route.ts] *)
(* ===================================================================== *)

Module Route.
Import JS.

(** *** Data *)

Inductive Role : Type := system | user | assistant.

(** [type ChatMessage] *)
Record ChatMessage : Type := {
  role : Role;
  content : string
}.

Definition is_user (m : ChatMessage) : bool :=
  match role m with user => true | _ => false end.

(** What [await req.json()] and [body.messages || []] see, at the type the
    handler casts to.  [Unreadable] is a body [req.json()] rejects (or
    [null], whose property read throws): it is caught by the outer [catch].
    [Body None] is a body without a (truthy) [messages] property.  The cast
    is not checked: a [messages] value that is not an array of
    [{ role, content }] objects with string contents is outside this type,
    and so are the [TypeError]s the handler can throw on one. *)
Inductive Request : Type :=
| Unreadable
| Body (messages : option (list ChatMessage)).

(** Values thrown inside the handler. *)
Inductive Exn : Type :=
| SyntaxError (what : string)
| TypeError (what : string)
| UpstreamError (what : string).

(** [namespace.searchRecords({ query: { topK, inputs: { text } } })] *)
Record SearchQuery : Type := {
  topK : nat;
  inputs_text : string
}.

(** One element of [search.records]; [values] are its properties in the
    order [Object.values] enumerates them. *)
Record Rec : Type := {
  values : option (list (string * json))
}.

Record SearchResponse : Type := {
  records : option (list Rec)
}.

(** [openai.chat.completions.create({ model, response_format, temperature,
    messages })] and the part of its result the handler reads. *)
Record CreateParams : Type := {
  model : string;
  response_format : string;
  temperature : Q;
  prompt : list ChatMessage
}.

Record CompletionMessage : Type := {
  completion_content : option string
}.

Record Choice : Type := {
  message : option CompletionMessage
}.

Record Completion : Type := {
  choices : list Choice
}.

(** [NextResponse.json(body, { status })]: a response whose body is the
    JSON text of the value handed over; [body] is that text as its reader
    gets it. *)
Record Response : Type := {
  status : Z;
  body : json
}.

Definition NextResponse_json (body : json) (init : option Z) : Response :=
  {| status := match init with Some s => s | None => 200%Z end;
     body := as_json body |}.

(** The calls the handler makes on its collaborators, in order. *)
Inductive Call : Type :=
| SearchRecords (index namespace : string) (query : SearchQuery)
| CompletionsCreate (params : CreateParams)
| ConsoleError (label : string) (err : Exn).

Definition is_search (c : Call) : bool :=
  match c with SearchRecords _ _ _ => true | _ => false end.

(** *** Constants *)

Definition dq : string := String (ascii_of_nat 34) EmptyString.

Definition KOA_SYSTEM_PROMPT : string := "
You are Koa ðŸ¨, a gentle, friendly micro-mindfulness buddy.
Users are usually students or early-career professionals who are stressed, tired, or overwhelmed.

Core rules:
- Tone: warm, cozy, calm, non-judgmental, simple language.
- Give **1â€“2 minute micro-practices** only (breathing, grounding, short body scan, tiny reflections).
- Never diagnose, label, or claim to treat mental-health conditions.
- Do NOT talk like a therapist; you are a supportive buddy.
- Always be encouraging and normalize what the user is feeling.
- If the user sounds very distressed, hopeless, or mentions self-harm:
  - Gently say youâ€™re an AI buddy and not a crisis service.
  - Encourage them to reach out to a trusted person or local professional/helpline.

Use the knowledge snippets you receive as your main source for practices.
When you reply:
1. Start with 1â€“2 warm validating sentences.
2. Offer **one** concrete micro-practice that fits their mood/energy/context.
3. Describe steps clearly and briefly (3â€“6 bullet points max).
4. End with a tiny follow-up question like:
   â€œWant another option?â€ or â€œWant something even shorter?â€
".

(** The template literal of the trailing system message. *)
Definition JSON_SHAPE_INSTRUCTIONS : string :=
  String.concat dq
    [ "
Respond ONLY as a JSON object with this exact shape:

{
  ";
      "reply";
      ": ";
      "short warm message Koa says to the user (max ~120 words)";
      ",
  ";
      "miniPractice";
      ": {
    ";
      "title";
      ": ";
      "name of the practice";
      ",
    ";
      "moodTags";
      ": [";
      "stressed";
      ", ";
      "anxious";
      ", ";
      "tired";
      ", ";
      "overwhelmed";
      ", ";
      "sad";
      ", ";
      "numb";
      "],
    ";
      "energyLevel";
      ": ";
      "low | medium | high";
      ",
    ";
      "environment";
      ": ";
      "at_desk | commute | bedtime | flexible";
      ",
    ";
      "duration";
      ": ";
      "1â€“2 mins";
      ",
    ";
      "steps";
      ": [
      ";
      "step 1 in simple language";
      ",
      ";
      "step 2 ...";
      ",
      ";
      "step 3 ...";
      "
    ],
    ";
      "note";
      ": ";
      "optional 1â€“2 line gentle reminder or reframe";
      "
  }
}

Do not include any extra text outside this JSON.
" ].

Definition SNIPPETS_HEADER : string :=
  "Here are knowledge base snippets you can draw practices from:" ++ nl ++ nl.

Definition FALLBACK_NOTICE : string :=
  "No specific snippet found; fall back to general micro-mindfulness advice.".

Definition RECORD_SEPARATOR : string := nl ++ nl ++ "---" ++ nl ++ nl.

Definition reply_object (reply : string) : json :=
  JObj [("reply", JStr reply); ("miniPractice", JNull)].

(** The object the inner [catch] substitutes for an unparsable completion. *)
Definition parse_fallback : json :=
  reply_object "Hmm, something went wrong while talking to my brain in the cloud. Could you try again in a moment? ðŸ«§".

(** The object the outer [catch] answers with. *)
Definition error_apology : json :=
  reply_object "Hmm, something went wrong while talking to my brain in the cloud. Can you try again in a moment? ðŸ«§".

Definition no_user_message : json :=
  JObj [("error", JStr "No user message provided.")].

(** *** Pure steps of the handler *)

(** [[...messages].reverse().find((m) => m.role === "user")?.content || ""] *)
Definition latestUserMessage (messages : list ChatMessage) : string :=
  match find is_user (rev messages) with
  | Some m => or_else (content m) ""
  | None => ""
  end.

(** The callback of [records.map]: the string-valued fields of one record,
    joined by a line feed. *)
Definition record_text (rec : Rec) : string :=
  let vals := match values rec with Some v => v | None => [] end in
  join nl (filter_strings (map snd vals)).

Definition contextText (records : list Rec) : string :=
  join RECORD_SEPARATOR (filter_Boolean (map record_text records)).

Definition contextForModel (records : list Rec) : string :=
  or_else (contextText records) FALLBACK_NOTICE.

(** [search.records || []] *)
Definition records_of (search : SearchResponse) : list Rec :=
  match records search with Some rs => rs | None => [] end.

Definition create_params (messages : list ChatMessage) (context : string)
  : CreateParams :=
  {| model := "gpt-4.1-mini";
     response_format := "json_object";
     temperature := Qmake 6 10;
     prompt :=
       [ {| role := system; content := KOA_SYSTEM_PROMPT |};
         {| role := system; content := SNIPPETS_HEADER ++ context |} ]
       ++ map (fun m => {| role := role m; content := content m |}) messages
       ++ [ {| role := system; content := JSON_SHAPE_INSTRUCTIONS |} ] |}.

(** [completion.choices[0].message?.content || "{}"]; reading [.message]
    of a missing first choice throws. *)
Definition completion_text (completion : Completion) : Exn + string :=
  match choices completion with
  | [] => inl (TypeError "Cannot read properties of undefined (reading 'message')")
  | choice :: _ =>
      let content :=
        match message choice with
        | Some m => match completion_content m with Some s => s | None => "" end
        | None => ""
        end in
      inr (or_else content "{}")
  end.

(** *** Stand-ins for the collaborators

    Used to run the handler on concrete requests.  Their world is a call
    counter, which they advance and never read. *)

Definition stub_store (answer : Exn + SearchResponse)
  : string -> string -> SearchQuery -> nat -> (Exn + SearchResponse) * nat :=
  fun _ _ _ w => (answer, S w).

Definition stub_openai (answer : Exn + Completion)
  : CreateParams -> nat -> (Exn + Completion) * nat :=
  fun _ w => (answer, S w).

Definition completion_of (text : option string) : Completion :=
  {| choices := [ {| message := Some {| completion_content := text |} |} ] |}.

Definition no_records : SearchResponse := {| records := Some [] |}.

(** A generation service that is not stubbed: its answer depends on how
    many calls the world has seen. *)
Definition counting_openai : CreateParams -> nat -> (Exn + Completion) * nat :=
  fun _ w =>
    (inr (completion_of (Some (if Nat.even w then "{}" else "[]"))), S w).

(** *** The handler

    The store, the generation service and [JSON.parse] are the handler's
    collaborators.  The two services act on a world the handler cannot
    see: a call returns a value or throws, and moves the world on. *)

Section Handler.

Variable World : Type.
Variable searchRecords :
  string -> string -> SearchQuery -> World -> (Exn + SearchResponse) * World.
Variable completions_create : CreateParams -> World -> (Exn + Completion) * World.
Variable JSON_parse : string -> option json.

(** [process.env.PINECONE_INDEX_NAME!] and [process.env.PINECONE_NAMESPACE] *)
Variable PINECONE_INDEX_NAME : string.
Variable env_PINECONE_NAMESPACE : option string.

Definition PINECONE_NAMESPACE : string :=
  or_else (match env_PINECONE_NAMESPACE with Some s => s | None => "" end) "default".

(** The state one run of the handler threads: the world of the services and
    the log of the calls made so far. *)
Record Run : Type := {
  world : World;
  calls : list Call
}.

Definition fresh (w : World) : Run := {| world := w; calls := [] |}.

(** Computations that may throw, over that state. *)
Definition M (A : Type) : Type := Run -> (Exn + A) * Run.

Definition ret {A : Type} (a : A) : M A := fun r => (inr a, r).

Definition throw {A : Type} (e : Exn) : M A := fun r => (inl e, r).

Definition bind {A B : Type} (c : M A) (k : A -> M B) : M B :=
  fun r =>
    match c r with
    | (inr a, r') => k a r'
    | (inl e, r') => (inl e, r')
    end.

Definition try_catch {A : Type} (c : M A) (handler : Exn -> M A) : M A :=
  fun r =>
    match c r with
    | (inl e, r') => handler e r'
    | (inr a, r') => (inr a, r')
    end.

Definition lift {A : Type} (x : Exn + A) : M A := fun r => (x, r).

Definition log (c : Call) : M unit :=
  fun r => (inr tt, {| world := world r; calls := calls r ++ [c] |}).

Local Notation "x <- c ;; k" := (bind c (fun x => k))
  (at level 61, c at next level, right associativity).
Local Notation "c ;;; k" := (bind c (fun _ => k))
  (at level 61, right associativity).

(** [await namespace.searchRecords(...)] *)
Definition await_search (query : SearchQuery) : M SearchResponse :=
  fun r =>
    let '(answer, w) :=
      searchRecords PINECONE_INDEX_NAME PINECONE_NAMESPACE query (world r) in
    (answer,
     {| world := w;
        calls := calls r ++ [SearchRecords PINECONE_INDEX_NAME PINECONE_NAMESPACE query] |}).

(** [await openai.chat.completions.create(...)] *)
Definition await_create (params : CreateParams) : M Completion :=
  fun r =>
    let '(answer, w) := completions_create params (world r) in
    (answer, {| world := w; calls := calls r ++ [CompletionsCreate params] |}).

(** [await req.json()], then [body.messages || []] *)
Definition req_messages (req : Request) : M (list ChatMessage) :=
  match req with
  | Unreadable => throw (SyntaxError "request body")
  | Body (Some messages) => ret messages
  | Body None => ret []
  end.

(** [JSON.parse(content)] *)
Definition parse (content : string) : M json :=
  match JSON_parse content with
  | Some v => ret v
  | None => throw (SyntaxError "completion content")
  end.

(** [export async function POST(req)] *)
Definition POST (req : Request) : M Response :=
  try_catch
    (messages <- req_messages req ;;
     let latestUserMessage := latestUserMessage messages in
     if falsy latestUserMessage
     then ret (NextResponse_json no_user_message (Some 400%Z))
     else
       search <- await_search {| topK := 5; inputs_text := latestUserMessage |} ;;
       let records := records_of search in
       let contextForModel := contextForModel records in
       completion <- await_create (create_params messages contextForModel) ;;
       content <- lift (completion_text completion) ;;
       parsed <- try_catch (parse content) (fun _ => ret parse_fallback) ;;
       ret (NextResponse_json parsed None))
    (fun err =>
       log (ConsoleError "Koa backend error:" err) ;;;
       ret (NextResponse_json error_apology (Some 500%Z))).

(** One request served from world [w]: the handler's result and the calls
    it made. *)
Definition serve (req : Request) (w : World) : (Exn + Response) * list Call :=
  let '(out, r) := POST req (fresh w) in (out, calls r).

End Handler.

Arguments world {World} _.
Arguments calls {World} _.
Arguments fresh {World} _.
Arguments POST {World} _ _ _ _ _ _ _.
Arguments serve {World} _ _ _ _ _ _ _.

End Route.

(* ===================================================================== *)
(** ** Vocabulary of the properties *)
(* ===================================================================== *)

Module Spec.
Import JS.

(** *** About a request history *)

(** No message of the history has role [user]. *)
Definition NoUser (messages : list Route.ChatMessage) : Prop :=
  Forall (fun x => Route.role x <> Route.user) messages.

(** [m] is the last message of the history with role [user]: every message
    after it has another role. *)
Definition LastUser (messages : list Route.ChatMessage) (m : Route.ChatMessage) : Prop :=
  exists before after,
    messages = before ++ m :: after /\
    Route.role m = Route.user /\
    NoUser after.

(** The three answers of the route. *)
Definition answer_400 : Route.Response :=
  Route.NextResponse_json Route.no_user_message (Some 400%Z).

Definition answer_500 : Route.Response :=
  Route.NextResponse_json Route.error_apology (Some 500%Z).

Definition answer_200 (parsed : json) : Route.Response :=
  Route.NextResponse_json parsed None.

(** *** About a completion *)

(** [choice.message?.content], [None] when the message or its content is
    missing. *)
Definition returned_content (choice : Route.Choice) : option string :=
  match Route.message choice with
  | Some m => Route.completion_content m
  | None => None
  end.

(** *** The context block as the specification words it

    "Concatenates all textual fields of each returned record in record
    order, joined by blank-line separators"; the fixed notice when the
    store returns zero records. *)
Definition BLANK_LINE : string := nl ++ nl.

Definition textual_fields (rec : Route.Rec) : list string :=
  filter_strings (map snd (match Route.values rec with Some v => v | None => [] end)).

Definition spec_context_block (records : list Route.Rec) : string :=
  match records with
  | [] => Route.FALLBACK_NOTICE
  | _ => join BLANK_LINE (flat_map textual_fields records)
  end.

(** *** About the page *)

(** A suspended call that, whenever and however it is resumed, adds one
    message at the end of the list and leaves the input field alone. *)
Definition appending (k : Page.FetchResult -> Z -> list Page.Effect) : Prop :=
  forall res now st,
    exists m,
      Page.messages (Page.run (k res now) st) = Page.messages st ++ [m] /\
      Page.isLoading (Page.run (k res now) st) = false.

(** The fetch results the [try] block survives: a status in 200..299 and a
    readable body. *)
Definition succeeded (res : Page.FetchResult) : option json :=
  match res with
  | Page.Responded status (Some data) => if Page.ok status then Some data else None
  | _ => None
  end.

(** *** Concrete runs

    The handler over the stand-in collaborators and the reference JSON
    reader, from a world that has seen no call. *)
Definition demo_from (w : nat) (store : Route.Exn + Route.SearchResponse)
    (openai : Route.Exn + Route.Completion) (req : Route.Request)
  : (Route.Exn + Route.Response) * list Route.Call :=
  Route.serve (Route.stub_store store) (Route.stub_openai openai)
    JSONRef.JSON_parse "koa-practices" None req w.

Definition demo := demo_from 0.

(** The world a demo run leaves behind. *)
Definition demo_world_after (w : nat) (store : Route.Exn + Route.SearchResponse)
    (openai : Route.Exn + Route.Completion) (req : Route.Request) : nat :=
  Route.world
    (snd (Route.POST (Route.stub_store store) (Route.stub_openai openai)
            JSONRef.JSON_parse "koa-practices" None req (Route.fresh w))).

Definition turns (l : list (Route.Role * string)) : list Route.ChatMessage :=
  map (fun t => {| Route.role := fst t; Route.content := snd t |}) l.

Definition hist (l : list (Route.Role * string)) : Route.Request :=
  Route.Body (Some (turns l)).

(** A history with two user turns, the later one followed by another
    role's message. *)
Definition two_user_history : list Route.ChatMessage :=
  turns [ (Route.user, "I am tired");
          (Route.assistant, "Try a slow breath.");
          (Route.user, "I can not focus");
          (Route.system, "Keep it short.") ].

Definition greeting : list Route.ChatMessage := turns [ (Route.user, "hi") ].

(** What [stub_store] and [stub_openai] are asked in a demo run. *)
Definition demo_query (messages : list Route.ChatMessage) : Route.SearchQuery :=
  {| Route.topK := 5; Route.inputs_text := Route.latestUserMessage messages |}.

Definition demo_search (messages : list Route.ChatMessage) : Route.Call :=
  Route.SearchRecords "koa-practices" "default" (demo_query messages).

Definition demo_params (messages : list Route.ChatMessage)
    (search : Route.SearchResponse) : Route.CreateParams :=
  Route.create_params messages (Route.contextForModel (Route.records_of search)).

(** Two records with text around one that has only a numeric field. *)
Definition numeric_record : Route.Rec :=
  {| Route.values := Some [("chunk_id", JNum (Qmake 7 1))] |}.

Definition box_breathing : Route.Rec :=
  {| Route.values :=
       Some [("text", JStr "Box breathing"); ("score", JNum (Qmake 1 2));
             ("post_context", JStr "Inhale for four.")] |}.

Definition body_scan : Route.Rec :=
  {| Route.values := Some [("text", JStr "Body scan")] |}.

Definition three_records : Route.SearchResponse :=
  {| Route.records := Some [box_breathing; numeric_record; body_scan] |}.

End Spec.

(* ===================================================================== *)
(** ** What the page renders *)
(* ===================================================================== *)

(** The part of the JSX returned by [HomePage] that depends on the state:
    one row per message, the typing row, the input field and the send
    button.  [MiniPracticeCard] takes no props, so a card is present or
    absent. *)
Module Render.
Import JS Page.

Record Row : Type := {
  key : Z;                (* [key={msg.id}] *)
  row_role : Role;        (* [koa-message-row-${msg.role}] *)
  avatar : bool;          (* [msg.role === 'assistant' && <div className="koa-avatar">] *)
  bubble_text : json;     (* [{msg.content}] *)
  card : bool             (* [msg.role === 'assistant' && msg.withActivityCard && <MiniPracticeCard />] *)
}.

Definition is_assistant (r : Role) : bool :=
  match r with assistant => true | user => false end.

Definition truthy_flag (f : option bool) : bool :=
  match f with Some true => true | _ => false end.

Definition render_row (msg : ChatMessage) : Row :=
  {| key := id msg;
     row_role := role msg;
     avatar := is_assistant (role msg);
     bubble_text := content msg;
     card := is_assistant (role msg) && truthy_flag (withActivityCard msg) |}.

Record View : Type := {
  rows : list Row;         (* [messages.map(msg => ...)] *)
  typing : bool;           (* [isLoading && <typing row>] *)
  input_value : string;    (* [value={input}] *)
  send_disabled : bool;    (* [disabled={isLoading}] *)
  send_label : string      (* [isLoading ? 'Sending…' : 'Send'] *)
}.

Definition render (st : State) : View :=
  {| rows := map render_row (messages st);
     typing := isLoading st;
     input_value := input st;
     send_disabled := isLoading st;
     send_label := if isLoading st then "Sending…" else "Send" |}.

End Render.

(* ===================================================================== *)
(** ** From the page to the route *)
(* ===================================================================== *)

(** The request body [JSON.stringify({ messages: payloadMessages })] as
    [req.json()] and the cast to [ChatMessage[]] read it back.  The route's
    type wants every content to be a string; a payload with another kind of
    content has no reading at that type. *)
Module Wire.
Import JS.

Definition role_of (r : Page.Role) : Route.Role :=
  match r with
  | Page.user => Route.user
  | Page.assistant => Route.assistant
  end.

Definition message_of (m : Page.PayloadMessage) : option Route.ChatMessage :=
  match Page.payload_content m with
  | JStr s => Some {| Route.role := role_of (Page.payload_role m); Route.content := s |}
  | _ => None
  end.

Fixpoint messages_of (payload : list Page.PayloadMessage)
  : option (list Route.ChatMessage) :=
  match payload with
  | [] => Some []
  | m :: rest =>
      match message_of m, messages_of rest with
      | Some m', Some rest' => Some (m' :: rest')
      | _, _ => None
      end
  end.

Definition request_of (payload : list Page.PayloadMessage) : option Route.Request :=
  match messages_of payload with
  | Some messages => Some (Route.Body (Some messages))
  | None => None
  end.

End Wire.

(* ===================================================================== *)
(** ** Further vocabulary *)
(* ===================================================================== *)

Module Terms.
Import JS.

(** *** About the handler's call log *)

Definition is_create (c : Route.Call) : bool :=
  match c with Route.CompletionsCreate _ => true | _ => false end.

Definition is_console (c : Route.Call) : bool :=
  match c with Route.ConsoleError _ _ => true | _ => false end.

(** *** About the page *)

(** What every call of [sendMessage] does after its request settled; the
    closure uses nothing of the call that created it. *)
Definition resume : Page.FetchResult -> Z -> list Page.Effect :=
  fun res now' =>
    match Page.try_block res now' with
    | inr effects => effects
    | inl err => Page.catch_block err now'
    end ++ Page.finally_block.

(** The assistant turn a settled request leaves: built from the body when
    the [try] block survives, the fixed error turn otherwise. *)
Definition reply (res : Page.FetchResult) (now : Z) : Page.ChatMessage :=
  match Spec.succeeded res with
  | Some data => Page.assistantMsg now data
  | None => Page.errorMsg now
  end.

(** The only shape the list of suspended calls takes on a page in use: one
    call while the loading flag is up, none otherwise. *)
Definition in_step (p : Page.Page) : Prop :=
  Page.suspended p = if Page.isLoading (Page.state p) then [resume] else [].

(** Where a message of the list can come from. *)
Inductive Origin : Page.ChatMessage -> Prop :=
| from_greeting : Origin Page.initialAssistantMessage
| from_user (now : Z) (text : string) :
    trim text <> "" -> Origin (Page.userMsg now (trim text))
| from_response (now : Z) (data : json) : Origin (Page.assistantMsg now data)
| from_failure (now : Z) : Origin (Page.errorMsg now).

(** [n] exchanges: a user turn followed by an assistant turn, [n] times. *)
Fixpoint exchanges (n : nat) : list Page.Role :=
  match n with
  | O => []
  | S k => Page.user :: Page.assistant :: exchanges k
  end.

(** The reading of [Date.now()] an event causes on a page, if it causes
    one: a submit reads the clock after it passed the guard, a settling
    request where it builds the assistant turn; a refused submit, typing,
    and a settle with nothing pending read no clock. *)
Definition clock_read (p : Page.Page) (ev : Page.Event) : option Z :=
  let passes (text : string) :=
    negb (falsy (trim text) || Page.isLoading (Page.state p)) in
  match ev with
  | Page.Send now => if passes (Page.input (Page.state p)) then Some now else None
  | Page.QuickMood text now => if passes text then Some now else None
  | Page.Change _ => None
  | Page.Settle _ now =>
      match Page.suspended p with
      | [] => None
      | _ :: _ => Some now
      end
  end.

(** Along the events handled from page [p], every reading of the clock
    comes more than two milliseconds after the previous one, [last]. *)
Fixpoint readings_spaced (p : Page.Page) (last : Z) (evs : list Page.Event) : bool :=
  match evs with
  | [] => true
  | ev :: rest =>
      match clock_read p ev with
      | Some now => (last + 2 <? now)%Z && readings_spaced (Page.step p ev) now rest
      | None => readings_spaced (Page.step p ev) last rest
      end
  end.

(** *** About retrieved records *)

(** A record with two string-valued fields, both empty. *)
Definition blank_pair : Route.Rec :=
  {| Route.values := Some [("pre_context", JStr ""); ("post_context", JStr "")] |}.

(** A record whose only text is the separator the handler joins with. *)
Definition rule_record : Route.Rec :=
  {| Route.values := Some [("text", JStr Route.RECORD_SEPARATOR)] |}.

(** A page on which a submit of some text is about to be made. *)
Definition submits (p : Page.Page) (ev : Page.Event) (text : string) : Prop :=
  (exists now, ev = Page.QuickMood text now) \/
  (exists now, ev = Page.Send now /\ Page.input (Page.state p) = text).

End Terms.

(* ===================================================================== *)
(** ** Properties of the built-ins *)
(* ===================================================================== *)

Module JSFacts.
Import JS.

Lemma falsy_true_iff (s : string) : falsy s = true <-> s = "".
Proof. destruct s; simpl; split; congruence. Qed.

Lemma falsy_false_iff (s : string) : falsy s = false <-> s <> "".
Proof. destruct s; simpl; split; congruence. Qed.

Lemma or_else_empty (s : string) : or_else s "" = s.
Proof. destruct s; reflexivity. Qed.

Lemma or_else_nonempty (s d : string) : s <> "" -> or_else s d = s.
Proof. destruct s; [congruence | reflexivity]. Qed.

Lemma append_empty_l (a b : string) : (a ++ b)%string = "" -> a = "".
Proof. destruct a; simpl; [reflexivity | discriminate]. Qed.

(** Joining texts none of which is empty gives the empty text only for the
    empty list. *)
Lemma join_empty (sep : string) (parts : list string) :
  Forall (fun p => p <> "") parts -> join sep parts = "" -> parts = [].
Proof.
  intros Hne Hj. destruct parts as [|p rest]; [reflexivity|].
  exfalso. inversion Hne as [|? ? Hp _]; subst.
  destruct rest as [|p' rest'].
  - simpl in Hj. contradiction.
  - change (join sep (p :: p' :: rest'))
      with (p ++ sep ++ join sep (p' :: rest'))%string in Hj.
    apply append_empty_l in Hj. contradiction.
Qed.

Lemma filter_Boolean_nonempty (texts : list string) :
  Forall (fun p => p <> "") (filter_Boolean texts).
Proof.
  unfold filter_Boolean. apply Forall_forall. intros p Hin.
  apply filter_In in Hin. destruct Hin as [_ Hp].
  apply falsy_false_iff. now apply negb_true_iff.
Qed.

Lemma filter_Boolean_id (texts : list string) :
  Forall (fun p => p <> "") texts -> filter_Boolean texts = texts.
Proof.
  unfold filter_Boolean. induction 1 as [|p rest Hp _ IH]; simpl; [reflexivity|].
  apply falsy_false_iff in Hp. rewrite Hp. simpl. now rewrite IH.
Qed.

(** A value without infinity is written by JSON as it is. *)
Lemma as_json_finite : forall v : json, all_finite v = true -> as_json v = v.
Proof.
  fix IH 1. intros [ | b | q | negative | s | items | props]; cbn [as_json all_finite];
    intros Hfin; try reflexivity; try discriminate Hfin.
  - f_equal. induction items as [|x items IHitems]; [reflexivity|].
    cbn [forallb] in Hfin. apply andb_true_iff in Hfin. destruct Hfin as [Hx Hrest].
    cbn [map]. now rewrite (IH x Hx), (IHitems Hrest).
  - f_equal. induction props as [|[k x] props IHprops]; [reflexivity|].
    cbn [forallb snd] in Hfin. apply andb_true_iff in Hfin. destruct Hfin as [Hx Hrest].
    cbn [map fst snd]. now rewrite (IH x Hx), (IHprops Hrest).
Qed.

End JSFacts.

(* ===================================================================== *)
(** ** Properties of the reply route *)
(* ===================================================================== *)

Module RouteFacts.
Import JS Route Spec JSFacts.

(** *** The last user message *)

Lemma is_user_true (m : ChatMessage) : is_user m = true <-> role m = user.
Proof. unfold is_user. destruct (role m); split; congruence. Qed.

Lemma is_user_false (m : ChatMessage) : is_user m = false <-> role m <> user.
Proof. unfold is_user. destruct (role m); split; congruence. Qed.

Lemma find_skips (A : Type) (f : A -> bool) (l1 : list A) (x : A) (l2 : list A) :
  Forall (fun y => f y = false) l1 -> f x = true ->
  find f (l1 ++ x :: l2) = Some x.
Proof.
  induction 1 as [|y l1' Hy _ IH]; intros Hx; simpl.
  - now rewrite Hx.
  - rewrite Hy. now apply IH.
Qed.

Lemma find_splits (A : Type) (f : A -> bool) (l : list A) (x : A) :
  find f l = Some x ->
  exists l1 l2, l = l1 ++ x :: l2 /\ f x = true /\ Forall (fun y => f y = false) l1.
Proof.
  induction l as [|y l' IH]; simpl; [discriminate|].
  destruct (f y) eqn:Hy.
  - intros [= ->]. exists [], l'. repeat split; auto.
  - intros Hf. destruct (IH Hf) as (l1 & l2 & -> & Hx & Hall).
    exists (y :: l1), l2. repeat split; auto.
Qed.

Lemma NoUser_rev (l : list ChatMessage) :
  NoUser l <-> Forall (fun y => is_user y = false) (rev l).
Proof.
  unfold NoUser. rewrite !Forall_forall. split; intros H x Hin.
  - apply is_user_false, H. now apply in_rev.
  - apply is_user_false, H. now apply in_rev in Hin.
Qed.

Lemma find_last_user (messages : list ChatMessage) (m : ChatMessage) :
  find is_user (rev messages) = Some m <-> LastUser messages m.
Proof.
  split.
  - intros Hf. apply find_splits in Hf.
    destruct Hf as (l1 & l2 & Hrev & Hm & Hall).
    exists (rev l2), (rev l1). repeat split.
    + rewrite <- (rev_involutive messages), Hrev, rev_app_distr. simpl.
      now rewrite <- app_assoc.
    + now apply is_user_true.
    + apply NoUser_rev. now rewrite rev_involutive.
  - intros (before & after & -> & Hm & Hafter).
    rewrite rev_app_distr. simpl. rewrite <- app_assoc. simpl.
    apply find_skips; [now apply NoUser_rev | now apply is_user_true].
Qed.

Lemma find_no_user (messages : list ChatMessage) :
  find is_user (rev messages) = None <-> NoUser messages.
Proof.
  rewrite NoUser_rev, Forall_forall. split.
  - intros Hf x Hin. now apply (find_none _ _ Hf).
  - intros H. destruct (find is_user (rev messages)) as [x|] eqn:Hf; [|reflexivity].
    apply find_some in Hf. destruct Hf as [Hin Hx]. rewrite (H x Hin) in Hx. discriminate.
Qed.

Lemma LastUser_unique (messages : list ChatMessage) (m m' : ChatMessage) :
  LastUser messages m -> LastUser messages m' -> m = m'.
Proof.
  intros H H'. apply find_last_user in H, H'. congruence.
Qed.

Lemma LastUser_not_NoUser (messages : list ChatMessage) (m : ChatMessage) :
  LastUser messages m -> ~ NoUser messages.
Proof.
  intros H Hno. apply find_last_user in H. apply find_no_user in Hno. congruence.
Qed.

Lemma latestUserMessage_last (messages : list ChatMessage) (m : ChatMessage) :
  LastUser messages m -> latestUserMessage messages = content m.
Proof.
  intros H. apply find_last_user in H. unfold latestUserMessage.
  rewrite H. apply or_else_empty.
Qed.

Lemma latestUserMessage_none (messages : list ChatMessage) :
  NoUser messages -> latestUserMessage messages = "".
Proof.
  intros H. apply find_no_user in H. unfold latestUserMessage. now rewrite H.
Qed.

(** The guard [!latestUserMessage] holds exactly for a history without a
    user message or whose last user message is empty. *)
Lemma guard_iff (messages : list ChatMessage) :
  falsy (latestUserMessage messages) = true <->
  NoUser messages \/ exists m, LastUser messages m /\ content m = "".
Proof.
  rewrite falsy_true_iff.
  destruct (find is_user (rev messages)) as [m|] eqn:Hf.
  - apply find_last_user in Hf. rewrite (latestUserMessage_last _ _ Hf). split.
    + intros Hc. right. now exists m.
    + intros [Hno | (m' & Hm' & Hc)].
      * now apply LastUser_not_NoUser in Hf.
      * now rewrite (LastUser_unique _ _ _ Hf Hm').
  - apply find_no_user in Hf. rewrite (latestUserMessage_none _ Hf). split; auto.
Qed.

(** *** One request, path by path *)

Section Served.

Variable World : Type.
Variable searchRecords :
  string -> string -> SearchQuery -> World -> (Exn + SearchResponse) * World.
Variable completions_create : CreateParams -> World -> (Exn + Completion) * World.
Variable JSON_parse : string -> option json.
Variable PINECONE_INDEX_NAME : string.
Variable env_PINECONE_NAMESPACE : option string.

Local Abbreviation NAMESPACE := (PINECONE_NAMESPACE env_PINECONE_NAMESPACE).
Local Abbreviation handler :=
  (POST searchRecords completions_create JSON_parse
        PINECONE_INDEX_NAME env_PINECONE_NAMESPACE).
Local Abbreviation served :=
  (serve searchRecords completions_create JSON_parse
         PINECONE_INDEX_NAME env_PINECONE_NAMESPACE).
Local Abbreviation search_of messages :=
  (searchRecords PINECONE_INDEX_NAME NAMESPACE
     {| topK := 5; inputs_text := latestUserMessage messages |}).
Local Abbreviation SEARCH messages :=
  (SearchRecords PINECONE_INDEX_NAME NAMESPACE
     {| topK := 5; inputs_text := latestUserMessage messages |}).
Local Abbreviation params_of messages search :=
  (create_params messages (contextForModel (records_of search))).
Local Abbreviation ERROR err := (ConsoleError "Koa backend error:" err).

Ltac run_handler :=
  cbv beta iota zeta delta
    [serve POST try_catch bind ret throw lift log req_messages parse
     await_search await_create fresh world calls fst snd].

Lemma POST_unreadable (r : Run World) :
  handler Unreadable r =
  (inr answer_500,
   {| world := world r; calls := calls r ++ [ERROR (SyntaxError "request body")] |}).
Proof. reflexivity. Qed.

Lemma POST_guarded (messages : list ChatMessage) (r : Run World) :
  falsy (latestUserMessage messages) = true ->
  handler (Body (Some messages)) r = (inr answer_400, r).
Proof. intros Hg. run_handler. rewrite Hg. reflexivity. Qed.

Lemma POST_search_throws (messages : list ChatMessage) (r : Run World)
    (e : Exn) (w1 : World) :
  falsy (latestUserMessage messages) = false ->
  search_of messages (world r) = (inl e, w1) ->
  handler (Body (Some messages)) r =
  (inr answer_500,
   {| world := w1; calls := (calls r ++ [SEARCH messages]) ++ [ERROR e] |}).
Proof.
  destruct r as [w cs]. cbn [world calls]. intros Hg Hs.
  run_handler. rewrite Hg, Hs. reflexivity.
Qed.

Lemma POST_create_throws (messages : list ChatMessage) (r : Run World)
    (search : SearchResponse) (w1 : World) (e : Exn) (w2 : World) :
  falsy (latestUserMessage messages) = false ->
  search_of messages (world r) = (inr search, w1) ->
  completions_create (params_of messages search) w1 = (inl e, w2) ->
  handler (Body (Some messages)) r =
  (inr answer_500,
   {| world := w2;
      calls := ((calls r ++ [SEARCH messages])
                ++ [CompletionsCreate (params_of messages search)]) ++ [ERROR e] |}).
Proof.
  destruct r as [w cs]. cbn [world calls]. intros Hg Hs Hc.
  run_handler. rewrite Hg, Hs, Hc. reflexivity.
Qed.

Lemma POST_completed (messages : list ChatMessage) (r : Run World)
    (search : SearchResponse) (w1 : World) (completion : Completion) (w2 : World) :
  falsy (latestUserMessage messages) = false ->
  search_of messages (world r) = (inr search, w1) ->
  completions_create (params_of messages search) w1 = (inr completion, w2) ->
  handler (Body (Some messages)) r =
  let made := (calls r ++ [SEARCH messages])
              ++ [CompletionsCreate (params_of messages search)] in
  match completion_text completion with
  | inl e => (inr answer_500, {| world := w2; calls := made ++ [ERROR e] |})
  | inr text =>
      (inr (answer_200 (match JSON_parse text with
                        | Some v => v
                        | None => parse_fallback
                        end)),
       {| world := w2; calls := made |})
  end.
Proof.
  destruct r as [w cs]. cbn [world calls]. intros Hg Hs Hc.
  run_handler. rewrite Hg, Hs, Hc.
  destruct (completion_text completion) as [e|text]; [reflexivity|].
  destruct (JSON_parse text); reflexivity.
Qed.

Local Abbreviation CREATE messages search :=
  (CompletionsCreate (params_of messages search)).

Lemma served_unreadable (w : World) :
  served Unreadable w = (inr answer_500, [ERROR (SyntaxError "request body")]).
Proof. reflexivity. Qed.

Lemma served_no_messages (w : World) :
  served (Body None) w = (inr answer_400, []).
Proof. reflexivity. Qed.

Lemma served_guarded (messages : list ChatMessage) (w : World) :
  falsy (latestUserMessage messages) = true ->
  served (Body (Some messages)) w = (inr answer_400, []).
Proof.
  intros Hg. unfold serve. now rewrite (POST_guarded _ _ Hg).
Qed.

Lemma served_search_throws (messages : list ChatMessage) (w : World)
    (e : Exn) (w1 : World) :
  falsy (latestUserMessage messages) = false ->
  search_of messages w = (inl e, w1) ->
  served (Body (Some messages)) w = (inr answer_500, [SEARCH messages; ERROR e]).
Proof.
  intros Hg Hs. unfold serve.
  now rewrite (POST_search_throws messages (fresh w) e w1 Hg Hs).
Qed.

Lemma served_create_throws (messages : list ChatMessage) (w : World)
    (search : SearchResponse) (w1 : World) (e : Exn) (w2 : World) :
  falsy (latestUserMessage messages) = false ->
  search_of messages w = (inr search, w1) ->
  completions_create (params_of messages search) w1 = (inl e, w2) ->
  served (Body (Some messages)) w =
  (inr answer_500, [SEARCH messages; CREATE messages search; ERROR e]).
Proof.
  intros Hg Hs Hc. unfold serve.
  now rewrite (POST_create_throws messages (fresh w) search w1 e w2 Hg Hs Hc).
Qed.

Lemma served_completed (messages : list ChatMessage) (w : World)
    (search : SearchResponse) (w1 : World) (completion : Completion) (w2 : World) :
  falsy (latestUserMessage messages) = false ->
  search_of messages w = (inr search, w1) ->
  completions_create (params_of messages search) w1 = (inr completion, w2) ->
  served (Body (Some messages)) w =
  match completion_text completion with
  | inl e =>
      (inr answer_500, [SEARCH messages; CREATE messages search; ERROR e])
  | inr text =>
      (inr (answer_200 (match JSON_parse text with
                        | Some v => v
                        | None => parse_fallback
                        end)),
       [SEARCH messages; CREATE messages search])
  end.
Proof.
  intros Hg Hs Hc. unfold serve.
  rewrite (POST_completed messages (fresh w) search w1 completion w2 Hg Hs Hc).
  cbv zeta. now destruct (completion_text completion).
Qed.

(** Past the guard the handler answers 200 or 500, after a single search
    made first. *)
Lemma served_past_guard (messages : list ChatMessage) (w : World) :
  falsy (latestUserMessage messages) = false ->
  exists answer rest,
    served (Body (Some messages)) w = (inr answer, SEARCH messages :: rest) /\
    (status answer = 200%Z \/ status answer = 500%Z) /\
    forallb (fun c => negb (is_search c)) rest = true.
Proof.
  intros Hg.
  destruct (search_of messages w) as [[e|search] w1] eqn:Hs.
  - rewrite (served_search_throws _ _ _ _ Hg Hs). eauto 6.
  - destruct (completions_create (params_of messages search) w1)
      as [[e|completion] w2] eqn:Hc.
    + rewrite (served_create_throws _ _ _ _ _ _ Hg Hs Hc). eauto 6.
    + rewrite (served_completed _ _ _ _ _ _ Hg Hs Hc).
      destruct (completion_text completion); eauto 6.
Qed.

(** The handler always answers: no path lets a thrown value escape. *)
Lemma served_answers (req : Request) (w : World) :
  exists answer made, served req w = (inr answer, made).
Proof.
  destruct req as [|[messages|]].
  - rewrite served_unreadable. eauto.
  - destruct (falsy (latestUserMessage messages)) eqn:Hg.
    + rewrite (served_guarded _ _ Hg). eauto.
    + destruct (served_past_guard _ w Hg) as (answer & rest & -> & _). eauto.
  - rewrite served_no_messages. eauto.
Qed.

(** *** The client-error guard *)

(** C2 (as amended).  The handler answers 400 with the body
    [{ error: "No user message provided." }] exactly when the history has
    no user message or its last user message has empty content.  In that
    case it calls neither the store nor the generation service; in every
    other case it goes past the check and its first call is the search. *)
Theorem client_error_iff (messages : list ChatMessage) (w : World) :
  exists answer made,
    served (Body (Some messages)) w = (inr answer, made) /\
    (status answer = 400%Z <->
       NoUser messages \/ exists m, LastUser messages m /\ content m = "") /\
    (status answer = 400%Z ->
       body answer = JObj [("error", JStr "No user message provided.")] /\
       made = []) /\
    (status answer <> 400%Z -> exists rest, made = SEARCH messages :: rest).
Proof.
  destruct (falsy (latestUserMessage messages)) eqn:Hg.
  - exists answer_400, []. rewrite (served_guarded _ _ Hg).
    repeat split; try reflexivity.
    + intros _. now apply guard_iff.
    + intros Hne. now contradiction Hne.
  - destruct (served_past_guard _ w Hg) as (answer & rest & Hrun & Hst & _).
    exists answer, (SEARCH messages :: rest). rewrite Hrun.
    assert (Hne : status answer <> 400%Z) by (destruct Hst as [-> | ->]; discriminate).
    repeat split.
    + intros H. contradiction.
    + intros H. apply guard_iff in H. congruence.
    + contradiction.
    + contradiction.
    + intros _. now exists rest.
Qed.

(** *** The query *)

(** C3.  When [m] is the last user message of the history, the text the
    handler selects is the content of [m]; every search it issues asks for
    the five best matches of exactly that text; and unless that text is
    empty the search is issued, once, before anything else. *)
Theorem query_is_last_user_message
    (messages : list ChatMessage) (m : ChatMessage) (w : World) :
  LastUser messages m ->
  latestUserMessage messages = content m /\
  (forall index namespace query,
      In (SearchRecords index namespace query) (snd (served (Body (Some messages)) w)) ->
      inputs_text query = content m /\ topK query = 5) /\
  (content m <> "" ->
   exists rest,
     snd (served (Body (Some messages)) w) =
     SearchRecords PINECONE_INDEX_NAME NAMESPACE
       {| topK := 5; inputs_text := content m |} :: rest /\
     forallb (fun c => negb (is_search c)) rest = true).
Proof.
  intros Hlast. pose proof (latestUserMessage_last _ _ Hlast) as Hq.
  split; [exact Hq|].
  destruct (falsy (latestUserMessage messages)) eqn:Hg.
  - rewrite (served_guarded _ _ Hg). split.
    + intros ? ? ? [].
    + intros Hne. apply falsy_true_iff in Hg. congruence.
  - destruct (served_past_guard _ w Hg) as (answer & rest & Hrun & _ & Hrest).
    rewrite Hrun, Hq. cbn [snd]. split.
    + intros index namespace query [Heq | Hin].
      * inversion Heq; subst. now split.
      * rewrite forallb_forall in Hrest. apply Hrest in Hin. discriminate.
    + intros _. now exists rest.
Qed.

(** *** The context block *)

Lemma contextForModel_cases (records : list Rec) :
  contextForModel records =
  match filter_Boolean (map record_text records) with
  | [] => FALLBACK_NOTICE
  | texts => join RECORD_SEPARATOR texts
  end.
Proof.
  unfold contextForModel, contextText.
  pose proof (filter_Boolean_nonempty (map record_text records)) as Hne.
  destruct (filter_Boolean (map record_text records)) as [|p rest] eqn:Hf.
  - reflexivity.
  - apply or_else_nonempty. intros Hj.
    apply (join_empty _ _ Hne) in Hj. discriminate.
Qed.

Lemma contextForModel_all_texts (records : list Rec) :
  records <> [] ->
  Forall (fun rec => record_text rec <> "") records ->
  contextForModel records = join RECORD_SEPARATOR (map record_text records).
Proof.
  intros Hrec Hall. rewrite contextForModel_cases.
  rewrite filter_Boolean_id.
  - destruct records; [contradiction | reflexivity].
  - now apply Forall_map.
Qed.

Lemma served_generation_call (messages : list ChatMessage) (w : World)
    (search : SearchResponse) (w1 : World) :
  falsy (latestUserMessage messages) = false ->
  search_of messages w = (inr search, w1) ->
  exists answer rest,
    served (Body (Some messages)) w =
    (inr answer, SEARCH messages :: CREATE messages search :: rest).
Proof.
  intros Hg Hs.
  destruct (completions_create (params_of messages search) w1)
    as [[e|completion] w2] eqn:Hc.
  - rewrite (served_create_throws _ _ _ _ _ _ Hg Hs Hc). eauto.
  - rewrite (served_completed _ _ _ _ _ _ Hg Hs Hc).
    destruct (completion_text completion); eauto.
Qed.

(** C4 (as amended).  Once the search has answered, the handler calls the
    generation service with, as second system message, the snippets header
    followed by the context block.  The block is built from the texts of
    the records: the string-valued fields of one record joined by a line
    feed, records without text dropped, the remaining texts joined in
    record order by the separator "blank line, three dashes, blank line".
    When no text remains (in particular when the store returns zero
    records) the block is the fixed notice, verbatim. *)
Theorem context_block_of_records
    (messages : list ChatMessage) (w : World) (search : SearchResponse) (w1 : World) :
  falsy (latestUserMessage messages) = false ->
  search_of messages w = (inr search, w1) ->
  let texts :=
    filter_Boolean
      (map (fun rec => join nl (textual_fields rec)) (records_of search)) in
  let block :=
    match texts with
    | [] => FALLBACK_NOTICE
    | _ => join (nl ++ nl ++ "---" ++ nl ++ nl) texts
    end in
  (exists answer params rest,
      served (Body (Some messages)) w =
      (inr answer, SEARCH messages :: CompletionsCreate params :: rest) /\
      nth_error (prompt params) 1 =
      Some {| role := system; content := SNIPPETS_HEADER ++ block |}) /\
  (records_of search = [] -> block = FALLBACK_NOTICE).
Proof.
  intros Hg Hs texts block.
  assert (Hblock : contextForModel (records_of search) = block).
  { rewrite contextForModel_cases. subst block texts.
    change (fun rec => join nl (textual_fields rec)) with record_text.
    now destruct (filter_Boolean (map record_text (records_of search))). }
  split.
  - destruct (served_generation_call _ _ _ _ Hg Hs) as (answer & rest & Hrun).
    exists answer, (params_of messages search), rest. split; [exact Hrun|].
    rewrite <- Hblock. reflexivity.
  - intros Hnil. subst block texts. now rewrite Hnil.
Qed.

(** *** Recovery from an unparsable completion *)

Lemma completion_text_of (completion : Completion) (choice : Choice)
    (rest : list Choice) :
  choices completion = choice :: rest ->
  completion_text completion =
  inr (or_else (match returned_content choice with Some s => s | None => "" end) "{}").
Proof.
  intros Hch. unfold completion_text, returned_content. rewrite Hch.
  destruct (message choice) as [m|]; reflexivity.
Qed.

(** C5 (as amended).  If the generation service returns a non-empty text
    that [JSON.parse] rejects, the handler answers with status 200 and the
    fixed fallback object [{ reply: <apology>, miniPractice: null }]; the
    failure is recovered in place: nothing is logged and no error status is
    produced. *)
Theorem unparsable_completion_recovered
    (messages : list ChatMessage) (w : World) (search : SearchResponse) (w1 : World)
    (completion : Completion) (w2 : World)
    (choice : Choice) (others : list Choice) (text : string) :
  falsy (latestUserMessage messages) = false ->
  search_of messages w = (inr search, w1) ->
  completions_create (params_of messages search) w1 = (inr completion, w2) ->
  choices completion = choice :: others ->
  returned_content choice = Some text ->
  text <> "" ->
  JSON_parse text = None ->
  served (Body (Some messages)) w =
  (inr {| status := 200;
          body := JObj [("reply", JStr "Hmm, something went wrong while talking to my brain in the cloud. Could you try again in a moment? ðŸ«§");
                        ("miniPractice", JNull)] |},
   [SEARCH messages; CREATE messages search]).
Proof.
  intros Hg Hs Hc Hch Hret Hne Hparse.
  rewrite (served_completed _ _ _ _ _ _ Hg Hs Hc).
  rewrite (completion_text_of _ _ _ Hch), Hret.
  rewrite (or_else_nonempty _ _ Hne), Hparse. reflexivity.
Qed.

(** *** Upstream failures *)

(** C6.  If the store's search throws, or the search answers and the
    generation call throws, the handler logs the thrown value and answers
    with status 500 and the fixed apology object, whatever was thrown. *)
Theorem upstream_failure_answers_500
    (messages : list ChatMessage) (w : World) (e : Exn) :
  falsy (latestUserMessage messages) = false ->
  (exists w1, search_of messages w = (inl e, w1)) \/
  (exists search w1 w2,
      search_of messages w = (inr search, w1) /\
      completions_create (params_of messages search) w1 = (inl e, w2)) ->
  exists made,
    served (Body (Some messages)) w =
    (inr {| status := 500;
            body := JObj [("reply", JStr "Hmm, something went wrong while talking to my brain in the cloud. Can you try again in a moment? ðŸ«§");
                          ("miniPractice", JNull)] |},
     made ++ [ERROR e]).
Proof.
  intros Hg [(w1 & Hs) | (search & w1 & w2 & Hs & Hc)].
  - exists [SEARCH messages].
    now rewrite (served_search_throws _ _ _ _ Hg Hs).
  - exists [SEARCH messages; CREATE messages search].
    now rewrite (served_create_throws _ _ _ _ _ _ Hg Hs Hc).
Qed.

(** *** Completions that parse *)

(** C10 (as amended).  Past the guard, with the search and the generation
    call answered: if the first choice carries no message content, or the
    empty string, the handler parses the default text "{}" instead and (as
    [JSON.parse] reads "{}" as the empty object) answers with status 200
    and the empty object, which is not the fallback object and has neither
    a [reply] nor a [miniPractice] field; and whatever value a non-empty
    content parses to is handed to the response unchecked: the body of the
    200 answer is that value as JSON writes it, the value itself unless it
    holds an infinity (a number too large for a double), which is written
    [null]. *)
Theorem parsed_completion_returned_as_json
    (messages : list ChatMessage) (w : World) (search : SearchResponse) (w1 : World)
    (completion : Completion) (w2 : World) (choice : Choice) (others : list Choice) :
  falsy (latestUserMessage messages) = false ->
  search_of messages w = (inr search, w1) ->
  completions_create (params_of messages search) w1 = (inr completion, w2) ->
  choices completion = choice :: others ->
  (returned_content choice = None \/ returned_content choice = Some "" ->
   JSON_parse "{}" = Some (JObj []) ->
   served (Body (Some messages)) w =
   (inr {| status := 200; body := JObj [] |},
    [SEARCH messages; CREATE messages search]) /\
   JObj [] <> parse_fallback /\
   opt_get (JObj []) "reply" = None /\
   opt_get (JObj []) "miniPractice" = None) /\
  (forall (text : string) (v : json),
      returned_content choice = Some text ->
      text <> "" ->
      JSON_parse text = Some v ->
      served (Body (Some messages)) w =
      (inr {| status := 200; body := as_json v |},
       [SEARCH messages; CREATE messages search]) /\
      (all_finite v = true -> as_json v = v)).
Proof.
  intros Hg Hs Hc Hch.
  rewrite (served_completed _ _ _ _ _ _ Hg Hs Hc).
  rewrite (completion_text_of _ _ _ Hch). split.
  - intros Hmissing Hparse.
    assert (Htext : or_else (match returned_content choice with
                             | Some s => s
                             | None => ""
                             end) "{}" = "{}")
      by (destruct Hmissing as [-> | ->]; reflexivity).
    rewrite Htext, Hparse. repeat split. discriminate.
  - intros text v Hret Hne Hparse.
    rewrite Hret, (or_else_nonempty _ _ Hne), Hparse.
    split; [reflexivity | apply as_json_finite].
Qed.

(** *** Determinism *)

Section Stubbed.

(** The collaborators are stubbed: what a call returns or throws depends on
    its arguments only, not on the world it is made in. *)
Hypothesis search_stubbed :
  forall index namespace query w w',
    fst (searchRecords index namespace query w) =
    fst (searchRecords index namespace query w').
Hypothesis create_stubbed :
  forall params w w',
    fst (completions_create params w) = fst (completions_create params w').

Lemma search_same (messages : list ChatMessage) (w w' : World)
    (out : Exn + SearchResponse) (w1 : World) :
  search_of messages w = (out, w1) ->
  exists w1', search_of messages w' = (out, w1').
Proof.
  intros Hs. pose proof (search_stubbed PINECONE_INDEX_NAME NAMESPACE
    {| topK := 5; inputs_text := latestUserMessage messages |} w w') as Heq.
  rewrite Hs in Heq. destruct (search_of messages w') as [out' w1'].
  simpl in Heq. subst. eauto.
Qed.

Lemma create_same (params : CreateParams) (w w' : World)
    (out : Exn + Completion) (w2 : World) :
  completions_create params w = (out, w2) ->
  exists w2', completions_create params w' = (out, w2').
Proof.
  intros Hc. pose proof (create_stubbed params w w') as Heq.
  rewrite Hc in Heq. destruct (completions_create params w') as [out' w2'].
  simpl in Heq. subst. eauto.
Qed.

Lemma served_same (req : Request) (w w' : World) : served req w' = served req w.
Proof.
  destruct req as [|[messages|]]; [reflexivity| |reflexivity].
  destruct (falsy (latestUserMessage messages)) eqn:Hg.
  - now rewrite !(served_guarded _ _ Hg).
  - destruct (search_of messages w) as [[e|search] w1] eqn:Hs;
      destruct (search_same _ _ w' _ _ Hs) as (w1' & Hs').
    + now rewrite (served_search_throws _ _ _ _ Hg Hs),
                  (served_search_throws _ _ _ _ Hg Hs').
    + destruct (completions_create (params_of messages search) w1)
        as [[e|completion] w2] eqn:Hc;
        destruct (create_same _ _ w1' _ _ Hc) as (w2' & Hc').
      * now rewrite (served_create_throws _ _ _ _ _ _ Hg Hs Hc),
                    (served_create_throws _ _ _ _ _ _ Hg Hs' Hc').
      * now rewrite (served_completed _ _ _ _ _ _ Hg Hs Hc),
                    (served_completed _ _ _ _ _ _ Hg Hs' Hc').
Qed.

(** C9.  With stubbed collaborators the handler is a function of the
    request: served in any two worlds, the same request gets the same
    answer (status and body) after the same calls; in particular a second
    invocation, served in the world the first one left behind, answers as
    the first did. *)
Theorem same_request_same_answer (req : Request) (w : World) :
  (forall w', served req w' = served req w) /\
  served req (world (snd (handler req (fresh w)))) = served req w.
Proof.
  split; [intros w'|]; apply served_same.
Qed.

End Stubbed.

End Served.

(** *** The properties on concrete requests *)

Example latest_of_two_user_history :
  latestUserMessage two_user_history = "I can not focus".
Proof. reflexivity. Qed.

Example context_of_three_records :
  contextForModel (records_of three_records) =
  ("Box breathing" ++ nl ++ "Inhale for four."
   ++ nl ++ nl ++ "---" ++ nl ++ nl ++ "Body scan")%string.
Proof. reflexivity. Qed.

Example apologies_differ : parse_fallback <> error_apology.
Proof. discriminate. Qed.

(** C2, the claim as first stated, fails: a history whose only message is a
    user message with empty content is answered 400 although it contains a
    user-role message, and the handler does not go past the check. *)
Lemma empty_user_message_refused :
  demo (inr no_records) (inr (completion_of (Some "{}"))) (hist [(user, "")]) =
  (inr {| status := 400; body := JObj [("error", JStr "No user message provided.")] |},
   []) /\
  ~ NoUser (turns [(user, "")]).
Proof.
  split; [reflexivity|].
  intros Hno. inversion Hno as [|? ? Hrole _]. now apply Hrole.
Qed.

(** C2 (as amended) on [two_user_history], which goes past the check, and
    on a history without user message, which does not. *)
Lemma client_error_iff_witness :
  (exists answer rest,
      demo (inr no_records) (inr (completion_of (Some "{}"))) (Body (Some two_user_history)) =
      (inr answer, demo_search two_user_history :: rest) /\
      status answer <> 400%Z) /\
  (exists answer made,
      demo (inr no_records) (inr (completion_of (Some "{}")))
        (hist [(assistant, "How are you?")]) = (inr answer, made) /\
      status answer = 400%Z /\
      made = []).
Proof.
  split.
  - destruct (client_error_iff nat
                (stub_store (inr no_records))
                (stub_openai (inr (completion_of (Some "{}"))))
                JSONRef.JSON_parse "koa-practices" None two_user_history 0)
      as (answer & made & Hrun & _ & _ & Hpast).
    change (demo (inr no_records) (inr (completion_of (Some "{}")))
              (Body (Some two_user_history)) = (inr answer, made)) in Hrun.
    assert (Hst : status answer <> 400%Z).
    { intros H400. vm_compute in Hrun. injection Hrun as <- _. discriminate H400. }
    destruct (Hpast Hst) as (rest & ->).
    exists answer, rest. split; [exact Hrun | exact Hst].
  - destruct (client_error_iff nat
                (stub_store (inr no_records))
                (stub_openai (inr (completion_of (Some "{}"))))
                JSONRef.JSON_parse "koa-practices" None
                (turns [(assistant, "How are you?")]) 0)
      as (answer & made & Hrun & Hiff & H400 & _).
    assert (Hst : status answer = 400%Z).
    { apply Hiff. left. constructor; [discriminate | constructor]. }
    exists answer, made. split; [exact Hrun|]. split; [exact Hst|].
    exact (proj2 (H400 Hst)).
Defined.

(** C3 on [two_user_history]: the query is the second user turn, neither
    the first one nor the assistant's or the system's. *)
Lemma query_is_last_user_message_witness :
  LastUser two_user_history {| role := user; content := "I can not focus" |} /\
  latestUserMessage two_user_history = "I can not focus" /\
  (forall index namespace query,
      In (SearchRecords index namespace query)
         (snd (demo (inr no_records) (inr (completion_of (Some "{}")))
                 (Body (Some two_user_history)))) ->
      inputs_text query = "I can not focus" /\ topK query = 5) /\
  ("I can not focus" <> "" ->
   exists rest,
     snd (demo (inr no_records) (inr (completion_of (Some "{}")))
            (Body (Some two_user_history))) =
     SearchRecords "koa-practices" "default"
       {| topK := 5; inputs_text := "I can not focus" |} :: rest /\
     forallb (fun c => negb (is_search c)) rest = true).
Proof.
  assert (Hlast : LastUser two_user_history
                    {| role := user; content := "I can not focus" |}).
  { exists (turns [(user, "I am tired"); (assistant, "Try a slow breath.")]),
           (turns [(system, "Keep it short.")]).
    split; [reflexivity|]. split; [reflexivity|].
    constructor; [discriminate | constructor]. }
  split; [exact Hlast|].
  exact (query_is_last_user_message nat
           (stub_store (inr no_records))
           (stub_openai (inr (completion_of (Some "{}"))))
           JSONRef.JSON_parse "koa-practices" None
           two_user_history {| role := user; content := "I can not focus" |} 0
           Hlast).
Defined.

(** C4, the claim as first stated, fails: the store returns one record, it
    has no string-valued field, and the context block is the fixed notice,
    not the (empty) concatenation of the record's textual fields. *)
Lemma record_without_text_gets_notice :
  records_of {| records := Some [numeric_record] |} <> [] /\
  contextForModel (records_of {| records := Some [numeric_record] |}) = FALLBACK_NOTICE /\
  spec_context_block (records_of {| records := Some [numeric_record] |}) = "" /\
  contextForModel (records_of {| records := Some [numeric_record] |}) <>
  spec_context_block (records_of {| records := Some [numeric_record] |}).
Proof.
  repeat split; discriminate.
Qed.

(** C4 (as amended) on [three_records]: the record with only a numeric
    field is dropped, the other two are joined by the dashed separator. *)
Lemma context_block_of_records_witness :
  falsy (latestUserMessage greeting) = false /\
  stub_store (inr three_records) "koa-practices" "default" (demo_query greeting) 0
  = (inr three_records, 1) /\
  (exists answer params rest,
      demo (inr three_records) (inr (completion_of (Some "{}"))) (Body (Some greeting)) =
      (inr answer, demo_search greeting :: CompletionsCreate params :: rest) /\
      nth_error (prompt params) 1 =
      Some {| role := system;
              content := SNIPPETS_HEADER ++ "Box breathing" ++ nl ++ "Inhale for four."
                         ++ nl ++ nl ++ "---" ++ nl ++ nl ++ "Body scan" |}).
Proof.
  split; [reflexivity|]. split; [reflexivity|].
  exact (proj1 (context_block_of_records nat
                  (stub_store (inr three_records))
                  (stub_openai (inr (completion_of (Some "{}"))))
                  JSONRef.JSON_parse "koa-practices" None
                  greeting 0 three_records 1 eq_refl eq_refl)).
Defined.

(** C5, the claim as first stated, fails: the empty text is rejected by
    [JSON.parse], yet a completion whose content is the empty text is
    answered with the empty object, not with the fallback object. *)
Lemma empty_completion_not_fallback :
  JSONRef.JSON_parse "" = None /\
  fst (demo (inr no_records) (inr (completion_of (Some ""))) (Body (Some greeting))) =
  inr {| status := 200; body := JObj [] |} /\
  JObj [] <> parse_fallback.
Proof.
  repeat split. discriminate.
Qed.

(** C5 (as amended) on a completion that is not JSON. *)
Lemma unparsable_completion_recovered_witness :
  falsy (latestUserMessage greeting) = false /\
  "Sure! Try this." <> "" /\
  JSONRef.JSON_parse "Sure! Try this." = None /\
  demo (inr no_records) (inr (completion_of (Some "Sure! Try this."))) (Body (Some greeting)) =
  (inr {| status := 200; body := parse_fallback |},
   [demo_search greeting; CompletionsCreate (demo_params greeting no_records)]).
Proof.
  split; [reflexivity|]. split; [discriminate|]. split; [reflexivity|].
  refine (unparsable_completion_recovered nat
            (stub_store (inr no_records))
            (stub_openai (inr (completion_of (Some "Sure! Try this."))))
            JSONRef.JSON_parse "koa-practices" None
            greeting 0 no_records 1 (completion_of (Some "Sure! Try this.")) 2
            {| message := Some {| completion_content := Some "Sure! Try this." |} |} []
            "Sure! Try this." _ _ _ _ _ _ _);
    solve [reflexivity | discriminate].
Defined.

(** C6 on a store that throws, and on a generation service that throws
    after the store answered. *)
Lemma upstream_failure_answers_500_witness :
  falsy (latestUserMessage greeting) = false /\
  (exists made,
      demo (inl (UpstreamError "index unreachable")) (inr (completion_of (Some "{}")))
        (Body (Some greeting)) =
      (inr {| status := 500; body := error_apology |},
       made ++ [ConsoleError "Koa backend error:" (UpstreamError "index unreachable")])) /\
  (exists made,
      demo (inr no_records) (inl (UpstreamError "rate limited")) (Body (Some greeting)) =
      (inr {| status := 500; body := error_apology |},
       made ++ [ConsoleError "Koa backend error:" (UpstreamError "rate limited")])).
Proof.
  split; [reflexivity|]. split.
  - refine (upstream_failure_answers_500 nat
              (stub_store (inl (UpstreamError "index unreachable")))
              (stub_openai (inr (completion_of (Some "{}"))))
              JSONRef.JSON_parse "koa-practices" None
              greeting 0 (UpstreamError "index unreachable") eq_refl _).
    left. exists 1. reflexivity.
  - refine (upstream_failure_answers_500 nat
              (stub_store (inr no_records))
              (stub_openai (inl (UpstreamError "rate limited")))
              JSONRef.JSON_parse "koa-practices" None
              greeting 0 (UpstreamError "rate limited") eq_refl _).
    right. exists no_records, 1, 2. split; reflexivity.
Defined.

(** C10, the claim as first stated, fails: the text 1e400 is JSON, it is
    read as an infinity, and the body of the answer is [null], not the
    content and not the value it parses to. *)
Lemma overflowing_number_answered_null :
  JSONRef.JSON_parse "1e400" = Some (JInfinity false) /\
  fst (demo (inr no_records) (inr (completion_of (Some "1e400"))) (Body (Some greeting))) =
  inr {| status := 200; body := JNull |} /\
  JNull <> JInfinity false.
Proof.
  split; [vm_compute; reflexivity|]. split; [vm_compute; reflexivity | discriminate].
Qed.

(** C10 (as amended) on a completion without content, on one whose content
    parses to an array, and on one that holds a number too large. *)
Lemma parsed_completion_returned_as_json_witness :
  falsy (latestUserMessage greeting) = false /\
  returned_content {| message := Some {| completion_content := None |} |} = None /\
  JSONRef.JSON_parse "{}" = Some (JObj []) /\
  demo (inr no_records) (inr (completion_of None)) (Body (Some greeting)) =
  (inr {| status := 200; body := JObj [] |},
   [demo_search greeting; CompletionsCreate (demo_params greeting no_records)]) /\
  JSONRef.JSON_parse "[true, null]" = Some (JArr [JBool true; JNull]) /\
  demo (inr no_records) (inr (completion_of (Some "[true, null]"))) (Body (Some greeting)) =
  (inr {| status := 200; body := JArr [JBool true; JNull] |},
   [demo_search greeting; CompletionsCreate (demo_params greeting no_records)]) /\
  JSONRef.JSON_parse "[1e400]" = Some (JArr [JInfinity false]) /\
  demo (inr no_records) (inr (completion_of (Some "[1e400]"))) (Body (Some greeting)) =
  (inr {| status := 200; body := JArr [JNull] |},
   [demo_search greeting; CompletionsCreate (demo_params greeting no_records)]).
Proof.
  split; [reflexivity|]. split; [reflexivity|]. split; [reflexivity|]. split.
  - exact (proj1 (proj1 (parsed_completion_returned_as_json nat
                           (stub_store (inr no_records))
                           (stub_openai (inr (completion_of None)))
                           JSONRef.JSON_parse "koa-practices" None
                           greeting 0 no_records 1 (completion_of None) 2
                           {| message := Some {| completion_content := None |} |} []
                           eq_refl eq_refl eq_refl eq_refl)
                    (or_introl eq_refl) eq_refl)).
  - split; [reflexivity|]. split; [|split; [vm_compute; reflexivity|]].
    + refine (proj1 (proj2 (parsed_completion_returned_as_json nat
                       (stub_store (inr no_records))
                       (stub_openai (inr (completion_of (Some "[true, null]"))))
                       JSONRef.JSON_parse "koa-practices" None
                       greeting 0 no_records 1 (completion_of (Some "[true, null]")) 2
                       {| message := Some {| completion_content := Some "[true, null]" |} |} []
                       eq_refl eq_refl eq_refl eq_refl)
                    "[true, null]" (JArr [JBool true; JNull]) eq_refl _ eq_refl)).
      discriminate.
    + refine (proj1 (proj2 (parsed_completion_returned_as_json nat
                       (stub_store (inr no_records))
                       (stub_openai (inr (completion_of (Some "[1e400]"))))
                       JSONRef.JSON_parse "koa-practices" None
                       greeting 0 no_records 1 (completion_of (Some "[1e400]")) 2
                       {| message := Some {| completion_content := Some "[1e400]" |} |} []
                       eq_refl eq_refl eq_refl eq_refl)
                    "[1e400]" (JArr [JInfinity false]) eq_refl _ _)).
      * discriminate.
      * vm_compute. reflexivity.
Defined.

(** C9 on the stand-ins, which advance the world at every call and never
    read it. *)
Lemma same_request_same_answer_witness :
  (forall index namespace query w w',
      fst (stub_store (inr three_records) index namespace query w) =
      fst (stub_store (inr three_records) index namespace query w')) /\
  (forall params w w',
      fst (stub_openai (inr (completion_of (Some "{}"))) params w) =
      fst (stub_openai (inr (completion_of (Some "{}"))) params w')) /\
  (forall w',
      demo_from w' (inr three_records) (inr (completion_of (Some "{}")))
        (Body (Some two_user_history)) =
      demo_from 0 (inr three_records) (inr (completion_of (Some "{}")))
        (Body (Some two_user_history))) /\
  demo_from
    (demo_world_after 0 (inr three_records) (inr (completion_of (Some "{}")))
       (Body (Some two_user_history)))
    (inr three_records) (inr (completion_of (Some "{}"))) (Body (Some two_user_history)) =
  demo_from 0 (inr three_records) (inr (completion_of (Some "{}")))
    (Body (Some two_user_history)).
Proof.
  split; [reflexivity|]. split; [reflexivity|].
  exact (same_request_same_answer nat
           (stub_store (inr three_records))
           (stub_openai (inr (completion_of (Some "{}"))))
           JSONRef.JSON_parse "koa-practices" None
           (fun _ _ _ _ _ => eq_refl) (fun _ _ _ => eq_refl)
           (Body (Some two_user_history)) 0).
Defined.

(** Without the stubbing the conclusion of C9 can fail: the same request
    served twice by [counting_openai] gets two different bodies. *)
Example unstubbed_service_answers_differ :
  fst (serve (stub_store (inr no_records)) counting_openai JSONRef.JSON_parse
         "koa-practices" None (Body (Some greeting)) 0) =
  inr {| status := 200; body := JArr [] |} /\
  fst (serve (stub_store (inr no_records)) counting_openai JSONRef.JSON_parse
         "koa-practices" None (Body (Some greeting)) 1) =
  inr {| status := 200; body := JObj [] |}.
Proof. split; reflexivity. Qed.

End RouteFacts.

(* ===================================================================== *)
(** ** Properties of the chat page *)
(* ===================================================================== *)

Module PageFacts.
Import JS Page Spec.

(** *** What one call of [sendMessage] does *)

Lemma run_app (e1 e2 : list Effect) (st : State) :
  run (e1 ++ e2) st = run e2 (run e1 st).
Proof. apply fold_left_app. Qed.

Lemma sendMessage_guard (messages : list ChatMessage) (isLoading : bool)
    (text : string) (now : Z) :
  sendMessage messages isLoading text now = None <->
  trim text = "" \/ isLoading = true.
Proof.
  unfold sendMessage.
  destruct (falsy (trim text)) eqn:Ht, isLoading; simpl; split;
    try discriminate; auto.
  - intros _. left. now apply JSFacts.falsy_true_iff.
  - intros [Hempty | Hl]; [|discriminate].
    apply JSFacts.falsy_true_iff in Hempty. congruence.
Qed.

Lemma sendMessage_sent (messages : list ChatMessage) (text : string) (now : Z) :
  trim text <> "" ->
  exists sent,
    sendMessage messages false text now = Some sent /\
    before_await sent =
      [SetMessages (fun prev => prev ++ [userMsg now (trim text)]);
       SetInput ""; SetIsLoading true] /\
    payloadMessages sent = map to_payload (messages ++ [userMsg now (trim text)]) /\
    after_await sent =
      (fun res now' =>
         match try_block res now' with
         | inr effects => effects
         | inl err => catch_block err now'
         end ++ finally_block).
Proof.
  intros Hne. apply JSFacts.falsy_false_iff in Hne.
  unfold sendMessage. rewrite Hne. simpl. eexists. repeat split.
Qed.

(** Whatever way the request settles, the resumed call appends one
    assistant message and clears the loading flag. *)
Lemma resumed (res : FetchResult) (now : Z) (st : State) :
  run (match try_block res now with
       | inr effects => effects
       | inl err => catch_block err now
       end ++ finally_block) st =
  {| messages := messages st ++
                 [match succeeded res with
                  | Some data => assistantMsg now data
                  | None => errorMsg now
                  end];
     input := input st;
     isLoading := false |}.
Proof.
  destruct res as [detail | status [data|]]; simpl; try reflexivity;
    destruct (ok status); reflexivity.
Qed.

Lemma sent_appending (messages : list ChatMessage) (isLoading : bool)
    (text : string) (now : Z) (sent : Sent) :
  sendMessage messages isLoading text now = Some sent ->
  appending (after_await sent).
Proof.
  unfold sendMessage. destruct (falsy (trim text) || isLoading); [discriminate|].
  intros [= <-] res now' st. cbn [after_await]. rewrite resumed.
  eexists. split; reflexivity.
Qed.

(** The text shown is the placeholder as soon as the body has neither a
    [message] nor a [content] that is not [null]. *)
Lemma assistantText_placeholder (props : list (string * json)) :
  lookup "message" props = None ->
  lookup "content" props = None ->
  assistantText (JObj props) = JStr placeholder.
Proof.
  intros Hm Hc. unfold assistantText, opt_get. now rewrite Hm, Hc.
Qed.

Lemma assistantText_message (props : list (string * json)) (v : json) :
  lookup "message" props = Some v -> v <> JNull ->
  assistantText (JObj props) = v.
Proof.
  intros Hm Hv. unfold assistantText, opt_get. rewrite Hm.
  destruct v; try reflexivity. contradiction.
Qed.

(** After a success status and a body without [message] and [content],
    the resumed call appends the placeholder turn. *)
Lemma placeholder_after_await
    (messages : list ChatMessage) (isLoading : bool) (text : string) (t0 : Z)
    (sent : Sent) (status : Z) (props : list (string * json)) (t1 : Z) (st : State) :
  sendMessage messages isLoading text t0 = Some sent ->
  ok status = true ->
  lookup "message" props = None ->
  lookup "content" props = None ->
  Page.messages (run (after_await sent (Responded status (Some (JObj props))) t1) st) =
  Page.messages st ++
  [ {| id := t1 + 1;
       role := assistant;
       content := JStr "Here’s a small practice you can try.";
       withActivityCard := Some true |} ].
Proof.
  intros Hsent Hok Hm Hc. unfold sendMessage in Hsent.
  destruct (falsy (trim text) || isLoading); [discriminate|].
  injection Hsent as <-. cbn [after_await]. rewrite resumed.
  cbn [Page.messages succeeded]. rewrite Hok.
  unfold assistantMsg. now rewrite (assistantText_placeholder _ Hm Hc).
Qed.

(** The two halves of a call that passes the guard: what it does before
    the request is awaited, and what it does once it has settled, in
    whatever state the page then is. *)
Lemma sendMessage_effects (st : State) (text : string) (t0 : Z) :
  trim text <> "" ->
  isLoading st = false ->
  exists sent,
    sendMessage (messages st) (isLoading st) text t0 = Some sent /\
    run (before_await sent) st =
      {| messages := messages st ++
                     [ {| id := t0; role := user; content := JStr (trim text);
                          withActivityCard := None |} ];
         input := "";
         isLoading := true |} /\
    payloadMessages sent =
      map to_payload (messages st) ++
      [ {| payload_role := user; payload_content := JStr (trim text) |} ] /\
    forall (res : FetchResult) (t1 : Z) (st' : State),
      run (after_await sent res t1) st' =
      {| messages := messages st' ++
                     [ match succeeded res with
                       | Some data =>
                           {| id := t1 + 1; role := assistant;
                              content := assistantText data;
                              withActivityCard := Some true |}
                       | None => errorMsg t1
                       end ];
         input := input st';
         isLoading := false |}.
Proof.
  intros Hne Hidle. rewrite Hidle.
  destruct (sendMessage_sent (messages st) text t0 Hne)
    as (sent & Hsent & Hbefore & Hpayload & Hafter).
  exists sent. split; [exact Hsent|]. split; [|split].
  - rewrite Hbefore. reflexivity.
  - rewrite Hpayload, map_app. reflexivity.
  - intros res t1 st'. rewrite Hafter. apply resumed.
Qed.

(** *** The page as a machine *)

Lemma steps_snoc (p : Page) (evs : list Event) (ev : Event) :
  steps p (evs ++ [ev]) = step (steps p evs) ev.
Proof. unfold steps. now rewrite fold_left_app. Qed.

Lemma steps_app (p : Page) (evs later : list Event) :
  steps p (evs ++ later) = steps (steps p evs) later.
Proof. apply fold_left_app. Qed.

Lemma start_extends (p : Page) (text : string) (now : Z) :
  Forall appending (suspended p) ->
  (exists added,
      messages (state (start p text now)) = messages (state p) ++ added) /\
  Forall appending (suspended (start p text now)).
Proof.
  intros Hinv. unfold start.
  destruct (sendMessage (messages (state p)) (isLoading (state p)) text now)
    as [sent|] eqn:Hsent.
  - split.
    + unfold sendMessage in Hsent.
      destruct (falsy (trim text) || isLoading (state p)); [discriminate|].
      injection Hsent as <-. cbn. eauto.
    + cbn [suspended]. apply Forall_app. split; [exact Hinv|].
      constructor; [|constructor]. exact (sent_appending _ _ _ _ _ Hsent).
  - split; [exists []; now rewrite app_nil_r | exact Hinv].
Qed.

Lemma step_extends (p : Page) (ev : Event) :
  Forall appending (suspended p) ->
  (exists added,
      messages (state (step p ev)) = messages (state p) ++ added) /\
  Forall appending (suspended (step p ev)).
Proof.
  intros Hinv. destruct ev as [now | text now | value | res now]; cbn [step].
  - now apply start_extends.
  - now apply start_extends.
  - split; [exists []; cbn; now rewrite app_nil_r | exact Hinv].
  - destruct (suspended p) as [|k rest] eqn:Hs.
    + split; [exists []; now rewrite app_nil_r | now rewrite Hs].
    + inversion Hinv as [|? ? Hk Hrest]; subst. cbn [state suspended].
      destruct (Hk res now (state p)) as (m & Hm & _).
      split; [eauto | exact Hrest].
Qed.

Lemma steps_extends (evs : list Event) (p : Page) :
  Forall appending (suspended p) ->
  (exists added,
      messages (state (steps p evs)) = messages (state p) ++ added) /\
  Forall appending (suspended (steps p evs)).
Proof.
  revert p. induction evs as [|ev evs IH]; intros p Hinv.
  - split; [exists []; cbn; now rewrite app_nil_r | exact Hinv].
  - change (steps p (ev :: evs)) with (steps (step p ev) evs).
    destruct (step_extends p ev Hinv) as ((a1 & H1) & Hinv1).
    destruct (IH _ Hinv1) as ((a2 & H2) & Hinv2).
    split; [|exact Hinv2].
    exists (a1 ++ a2). now rewrite H2, H1, app_assoc.
Qed.

(** One request at a time: on every reachable page the loading flag is up
    exactly while a call is suspended, and at most one call is. *)
Lemma one_request_in_flight (evs : list Event) :
  let p := steps initialPage evs in
  (isLoading (state p) = false /\ suspended p = []) \/
  (isLoading (state p) = true /\ exists k, suspended p = [k] /\ appending k).
Proof.
  induction evs as [|ev evs IH] using rev_ind; [left; split; reflexivity|].
  cbv zeta in *. rewrite steps_snoc.
  set (p := steps initialPage evs) in *.
  assert (Hstart : forall text now,
    (isLoading (state (start p text now)) = false /\ suspended (start p text now) = []) \/
    (isLoading (state (start p text now)) = true /\
     exists k, suspended (start p text now) = [k] /\ appending k)).
  { intros text now. unfold start.
    destruct (sendMessage (messages (state p)) (isLoading (state p)) text now)
      as [sent|] eqn:Hsent; [|exact IH].
    right. pose proof (sent_appending _ _ _ _ _ Hsent) as Happ.
    unfold sendMessage in Hsent.
    destruct (falsy (trim text)); [discriminate|].
    destruct IH as [(Hl & Hs) | (Hl & _)]; rewrite Hl in Hsent; [|discriminate].
    cbn in Hsent. injection Hsent as <-. cbn [state suspended]. rewrite Hs.
    split; [reflexivity|]. eexists. split; [reflexivity|exact Happ]. }
  destruct ev as [now | text now | value | res now]; cbn [step].
  - apply Hstart.
  - apply Hstart.
  - exact IH.
  - destruct IH as [(Hl & Hs) | (Hl & k & Hs & Hk)]; rewrite Hs.
    + left. now split.
    + left. cbn [state suspended]. destruct (Hk res now (state p)) as (m & _ & Hdone).
      now split.
Qed.

(** C8.  On every page reachable from the initial one, every event (a
    submit, a mood chip, typing, a request settling) leaves the message
    list as it was or extends it at the end; hence a message, once at some
    position of the list, stays there unchanged (same id, role, content)
    whatever happens later. *)
Theorem history_append_only (evs : list Event) :
  (forall ev,
      exists added,
        messages (state (step (steps initialPage evs) ev)) =
        messages (state (steps initialPage evs)) ++ added) /\
  (forall later i m,
      nth_error (messages (state (steps initialPage evs))) i = Some m ->
      nth_error (messages (state (steps initialPage (evs ++ later)))) i = Some m).
Proof.
  assert (Hinit : Forall appending (suspended initialPage)) by constructor.
  destruct (steps_extends evs initialPage Hinit) as (_ & Hinv).
  split.
  - intros ev. exact (proj1 (step_extends _ ev Hinv)).
  - intros later i m Hnth. rewrite steps_app.
    destruct (steps_extends later _ Hinv) as ((added & ->) & _).
    rewrite nth_error_app1; [exact Hnth|].
    apply nth_error_Some. congruence.
Qed.

(** *** A whole interaction *)

Lemma reachable_idle (evs : list Event) :
  isLoading (state (steps initialPage evs)) = false ->
  suspended (steps initialPage evs) = [].
Proof.
  intros Hidle.
  destruct (one_request_in_flight evs) as [(_ & Hs) | (Hl & _)]; [exact Hs|].
  cbv zeta in Hl. congruence.
Qed.

Lemma start_idle (p : Page) (text : string) (now : Z) :
  isLoading (state p) = false ->
  suspended p = [] ->
  trim text <> "" ->
  start p text now =
  {| state := {| messages := messages (state p) ++ [userMsg now (trim text)];
                 input := "";
                 isLoading := true |};
     suspended :=
       [fun res now' =>
          match try_block res now' with
          | inr effects => effects
          | inl err => catch_block err now'
          end ++ finally_block] |}.
Proof.
  intros Hidle Hs Hne. apply JSFacts.falsy_false_iff in Hne.
  unfold start, sendMessage. rewrite Hidle, Hne, Hs. reflexivity.
Qed.





(** C1.  On a reachable page whose loading flag is down, after a text is
    submitted and the request is answered with a success status and a body
    that is an object without a [message] and without a [content] property
    (the route's [{ reply, miniPractice }] shape), the assistant turn the
    page appends carries the generic placeholder, whatever the [reply]. *)
Theorem reply_shape_shows_placeholder
    (evs : list Event) (text : string) (t0 : Z)
    (status : Z) (props : list (string * json)) (t1 : Z) :
  isLoading (state (steps initialPage evs)) = false ->
  trim text <> "" ->
  ok status = true ->
  lookup "message" props = None ->
  lookup "content" props = None ->
  messages (state (steps (steps initialPage evs)
                     [QuickMood text t0;
                      Settle (Responded status (Some (JObj props))) t1])) =
  messages (state (steps initialPage evs)) ++
  [ {| id := t0; role := user; content := JStr (trim text); withActivityCard := None |};
    {| id := t1 + 1; role := assistant;
       content := JStr "Here’s a small practice you can try.";
       withActivityCard := Some true |} ].
Proof.
  intros Hidle Hne Hok Hm Hc.
  set (p := steps initialPage evs) in *.
  change (steps p [QuickMood text t0; Settle (Responded status (Some (JObj props))) t1])
    with (step (start p text t0) (Settle (Responded status (Some (JObj props))) t1)).
  rewrite (start_idle p text t0 Hidle (reachable_idle evs Hidle) Hne).
  cbn [step suspended state]. rewrite resumed.
  cbn [messages succeeded]. rewrite Hok, <- app_assoc.
  unfold assistantMsg. now rewrite (assistantText_placeholder _ Hm Hc).
Qed.

(** *** The properties on concrete interactions *)

Example trim_strips_both_ends :
  trim (" " ++ nl ++ "I'm tired.  ") = "I'm tired.".
Proof. reflexivity. Qed.

Example blank_submit_ignored :
  step initialPage (QuickMood "   " 1000) = initialPage.
Proof. reflexivity. Qed.

(** C1 on the first interaction of a session, answered by the route with
    a reply of its own. *)
Lemma reply_shape_shows_placeholder_witness :
  isLoading (state (steps initialPage [])) = false /\
  trim "I'm tired and low on energy." <> "" /\
  ok 200 = true /\
  messages
    (state (steps (steps initialPage [])
              [QuickMood "I'm tired and low on energy." 1000;
               Settle (Responded 200 (Some (Route.reply_object "Take three slow breaths.")))
                      2000])) =
  [ initialAssistantMessage;
    {| id := 1000; role := user; content := JStr "I'm tired and low on energy.";
       withActivityCard := None |};
    {| id := 2001; role := assistant;
       content := JStr "Here’s a small practice you can try.";
       withActivityCard := Some true |} ].
Proof.
  assert (Hne : trim "I'm tired and low on energy." <> "") by discriminate.
  split; [reflexivity|]. split; [exact Hne|]. split; [reflexivity|].
  exact (reply_shape_shows_placeholder [] "I'm tired and low on energy." 1000 200
           [("reply", JStr "Take three slow breaths."); ("miniPractice", JNull)] 2000
           eq_refl Hne eq_refl eq_refl eq_refl).
Defined.


(** C8 on a session with two interactions: the first user turn is still
    the second message of the list at the end. *)
Lemma history_append_only_witness :
  nth_error
    (messages (state (steps initialPage [QuickMood "I'm tired and low on energy." 1000])))
    1 = Some (userMsg 1000 "I'm tired and low on energy.") /\
  nth_error
    (messages
       (state (steps initialPage
                 ([QuickMood "I'm tired and low on energy." 1000] ++
                  [Change "thanks"; Settle (Rejected "offline") 2000;
                   Send 3000; QuickMood "again" 3001;
                   Settle (Responded 200 (Some (JObj []))) 4000]))))
    1 = Some (userMsg 1000 "I'm tired and low on energy.") /\
  length
    (messages
       (state (steps initialPage
                 ([QuickMood "I'm tired and low on energy." 1000] ++
                  [Change "thanks"; Settle (Rejected "offline") 2000;
                   Send 3000; QuickMood "again" 3001;
                   Settle (Responded 200 (Some (JObj []))) 4000])))) = 5.
Proof.
  split; [reflexivity|]. split; [|reflexivity].
  exact (proj2 (history_append_only [QuickMood "I'm tired and low on energy." 1000])
           [Change "thanks"; Settle (Rejected "offline") 2000;
            Send 3000; QuickMood "again" 3001;
            Settle (Responded 200 (Some (JObj []))) 4000]
           1 (userMsg 1000 "I'm tired and low on energy.") eq_refl).
Defined.

End PageFacts.

(* ===================================================================== *)
(** ** More about the reply route *)
(* ===================================================================== *)

Module RouteMore.
Import JS Route Spec Terms JSFacts.

(** *** The context block *)

Lemma append_assoc (a b c : string) : ((a ++ b) ++ c = a ++ (b ++ c))%string.
Proof. induction a as [|x a IH]; simpl; [reflexivity | now rewrite IH]. Qed.

Lemma join_nonempty (sep p : string) (rest : list string) :
  p <> "" -> join sep (p :: rest) <> "".
Proof.
  intros Hp Hj. destruct rest as [|q rest]; [now apply Hp|].
  change (join sep (p :: q :: rest)) with (p ++ sep ++ join sep (q :: rest))%string in Hj.
  now apply append_empty_l in Hj.
Qed.

Lemma join_app (sep : string) (l1 l2 : list string) :
  join sep (l1 ++ l2) =
  match l1, l2 with
  | [], _ => join sep l2
  | _, [] => join sep l1
  | _, _ => (join sep l1 ++ sep ++ join sep l2)%string
  end.
Proof.
  induction l1 as [|p l1 IH]; [reflexivity|].
  destruct l2 as [|q l2]; [now rewrite app_nil_r|].
  destruct l1 as [|p' l1]; [reflexivity|].
  change (join sep ((p :: p' :: l1) ++ q :: l2))
    with (p ++ sep ++ join sep ((p' :: l1) ++ q :: l2))%string.
  rewrite IH.
  change (join sep (p :: p' :: l1)) with (p ++ sep ++ join sep (p' :: l1))%string.
  now rewrite !append_assoc.
Qed.

Lemma texts_app (a b : list Rec) :
  filter_Boolean (map record_text (a ++ b)) =
  filter_Boolean (map record_text a) ++ filter_Boolean (map record_text b).
Proof. unfold filter_Boolean. now rewrite map_app, filter_app. Qed.

Lemma contextText_empty_iff (records : list Rec) :
  contextText records = "" <-> filter_Boolean (map record_text records) = [].
Proof.
  unfold contextText. split.
  - apply join_empty, filter_Boolean_nonempty.
  - now intros ->.
Qed.

Lemma texts_empty_iff (records : list Rec) :
  filter_Boolean (map record_text records) = [] <->
  Forall (fun rec => record_text rec = "") records.
Proof.
  unfold filter_Boolean. induction records as [|r rest IH]; simpl.
  - split; constructor.
  - destruct (falsy (record_text r)) eqn:Hf; simpl.
    + apply falsy_true_iff in Hf. rewrite IH. split.
      * now constructor.
      * now inversion 1.
    + apply falsy_false_iff in Hf. split; [discriminate|].
      inversion 1; contradiction.
Qed.

Lemma contextForModel_nonempty (records : list Rec) : contextForModel records <> "".
Proof.
  unfold contextForModel. destruct (contextText records) eqn:He; discriminate.
Qed.

(** X6.  The context block handed to the model is never empty: it is the fixed
    notice when no record has text, and the joined texts otherwise. *)
Theorem context_block_never_empty (records : list Rec) :
  contextForModel records <> "" /\
  (Forall (fun rec => record_text rec = "") records ->
   contextForModel records = FALLBACK_NOTICE) /\
  (~ Forall (fun rec => record_text rec = "") records ->
   contextForModel records = contextText records /\ contextText records <> "").
Proof.
  assert (Hcases : contextText records = "" \/ contextText records <> "").
  { destruct (contextText records); [now left | right; discriminate]. }
  unfold contextForModel. destruct Hcases as [He | Hne].
  - rewrite He. split; [discriminate|]. split; [reflexivity|].
    intros Hnot. exfalso. apply Hnot.
    now apply texts_empty_iff, contextText_empty_iff.
  - rewrite (or_else_nonempty _ _ Hne). split; [exact Hne|]. split; [|now split].
    intros Hall. exfalso. apply Hne.
    now apply contextText_empty_iff, texts_empty_iff.
Qed.

(** X7.  The joined text of two result lists put end to end is the two joined
    texts around one separator, or the one that is not empty. *)
Theorem context_of_appended_results (a b : list Rec) :
  contextText (a ++ b) =
  if falsy (contextText a) then contextText b
  else if falsy (contextText b) then contextText a
  else (contextText a ++ RECORD_SEPARATOR ++ contextText b)%string.
Proof.
  unfold contextText at 1. rewrite texts_app, join_app.
  destruct (filter_Boolean (map record_text a)) as [|p l1] eqn:Ha.
  - apply contextText_empty_iff in Ha. rewrite Ha. reflexivity.
  - assert (Hna : contextText a <> "").
    { intros H. apply contextText_empty_iff in H. congruence. }
    apply falsy_false_iff in Hna. rewrite Hna.
    destruct (filter_Boolean (map record_text b)) as [|q l2] eqn:Hb.
    + apply contextText_empty_iff in Hb. rewrite Hb. cbn [falsy].
      unfold contextText. now rewrite Ha.
    + assert (Hnb : contextText b <> "").
      { intros H. apply contextText_empty_iff in H. congruence. }
      apply falsy_false_iff in Hnb. rewrite Hnb.
      unfold contextText. now rewrite Ha, Hb.
Qed.

Lemma no_string_field_textless (fields : list (string * json)) :
  Forall (fun kv => forall s, snd kv <> JStr s) fields ->
  record_text {| values := Some fields |} = "".
Proof.
  unfold record_text. cbn [values].
  induction 1 as [|[k v] rest Hv _ IH]; [reflexivity|].
  cbn [map snd filter_strings]. cbn [snd] in Hv.
  destruct v; try exact IH. now contradiction (Hv s).
Qed.

Lemma join_empty_iff (sep : string) (parts : list string) :
  sep <> "" -> (join sep parts = "" <-> parts = [] \/ parts = [""]).
Proof.
  intros Hsep. split.
  - destruct parts as [|p [|q rest]]; [now left | cbn; intros ->; now right |].
    change (join sep (p :: q :: rest)) with (p ++ sep ++ join sep (q :: rest))%string.
    intros Hj. pose proof (append_empty_l _ _ Hj) as ->. cbn in Hj.
    now apply append_empty_l in Hj.
  - now intros [-> | ->].
Qed.

(** X8.  A retrieved record whose text is empty (which are exactly the
    records with no string-valued field, or with a single one that is the
    empty string) leaves no trace in the context block, wherever it stands
    in the results. *)
Theorem textless_record_ignored (a b : list Rec) (rec : Rec) :
  (record_text rec = "" <-> textual_fields rec = [] \/ textual_fields rec = [""]) /\
  (record_text rec = "" ->
   contextForModel (a ++ rec :: b) = contextForModel (a ++ b)).
Proof.
  split.
  - apply (join_empty_iff nl (textual_fields rec)). discriminate.
  - intros Hrec. unfold contextForModel, contextText.
    rewrite !texts_app. cbn [map]. unfold filter_Boolean at 2.
    cbn [filter]. rewrite Hrec. reflexivity.
Qed.

(** A record with two empty strings is not one of them: its text is a line
    feed, and it is kept. *)
Example blank_pair_kept :
  record_text blank_pair = nl /\ contextForModel [blank_pair] = nl.
Proof. split; reflexivity. Qed.

(** The equation of X7 promises nothing about the texts themselves: a
    record whose text is the separator shows as a doubled separator. *)
Example separator_as_text :
  contextText ([body_scan] ++ [rule_record]) =
  ("Body scan" ++ RECORD_SEPARATOR ++ RECORD_SEPARATOR)%string.
Proof. reflexivity. Qed.

Lemma textless_record_ignored_witness :
  record_text numeric_record = "" /\
  contextForModel ([box_breathing] ++ numeric_record :: [body_scan]) =
  contextForModel ([box_breathing] ++ [body_scan]).
Proof.
  split; [reflexivity|].
  exact (proj2 (textless_record_ignored [box_breathing] [body_scan] numeric_record)
           eq_refl).
Defined.

Lemma context_block_never_empty_witness :
  contextForModel [numeric_record] = FALLBACK_NOTICE /\
  contextForModel [numeric_record; body_scan] = "Body scan".
Proof.
  split.
  - apply (proj1 (proj2 (context_block_never_empty [numeric_record]))).
    constructor; [reflexivity | constructor].
  - refine (proj1 (proj2 (proj2 (context_block_never_empty [numeric_record; body_scan])) _)).
    intros Hall. inversion Hall as [|? ? _ Hrest]. inversion Hrest as [|? ? Hb _].
    discriminate Hb.
Defined.

(** *** Every path of the handler *)

Lemma namespace_never_empty (env : option string) :
  PINECONE_NAMESPACE env <> "" /\
  (forall ns, env = Some ns -> ns <> "" -> PINECONE_NAMESPACE env = ns) /\
  (env = None \/ env = Some "" -> PINECONE_NAMESPACE env = "default").
Proof.
  unfold PINECONE_NAMESPACE. split; [|split].
  - destruct env as [[|c ns]|]; discriminate.
  - intros ns -> Hns. now apply or_else_nonempty.
  - intros [-> | ->]; reflexivity.
Qed.

Lemma or_else_default (s d : string) : d <> "" -> or_else s d <> "".
Proof. destruct s; [trivial | discriminate]. Qed.

Lemma history_copied (messages : list ChatMessage) :
  map (fun m => {| role := role m; content := content m |}) messages = messages.
Proof.
  induction messages as [|[r c] rest IH]; [reflexivity|].
  cbn [map role content]. now rewrite IH.
Qed.

Section Paths.

Variable World : Type.
Variable searchRecords :
  string -> string -> SearchQuery -> World -> (Exn + SearchResponse) * World.
Variable completions_create : CreateParams -> World -> (Exn + Completion) * World.
Variable JSON_parse : string -> option json.
Variable PINECONE_INDEX_NAME : string.
Variable env_PINECONE_NAMESPACE : option string.

Local Abbreviation NAMESPACE := (PINECONE_NAMESPACE env_PINECONE_NAMESPACE).
Local Abbreviation served :=
  (serve searchRecords completions_create JSON_parse
         PINECONE_INDEX_NAME env_PINECONE_NAMESPACE).
Local Abbreviation search_of messages :=
  (searchRecords PINECONE_INDEX_NAME NAMESPACE
     {| topK := 5; inputs_text := latestUserMessage messages |}).
Local Abbreviation SEARCH messages :=
  (SearchRecords PINECONE_INDEX_NAME NAMESPACE
     {| topK := 5; inputs_text := latestUserMessage messages |}).
Local Abbreviation params_of messages search :=
  (create_params messages (contextForModel (records_of search))).
Local Abbreviation CREATE messages search :=
  (CompletionsCreate (params_of messages search)).
Local Abbreviation ERROR err := (ConsoleError "Koa backend error:" err).

(** Splits a goal about [served req w] along the paths of the handler and
    rewrites the run on each. *)
Ltac paths req w :=
  let messages := fresh "messages" in
  let Hg := fresh "Hg" in
  let Hs := fresh "Hs" in
  let Hc := fresh "Hc" in
  let Ht := fresh "Ht" in
  let e := fresh "e" in
  let search := fresh "search" in
  let completion := fresh "completion" in
  let text := fresh "text" in
  let w1 := fresh "w1" in
  let w2 := fresh "w2" in
  destruct req as [|[messages|]];
  [ rewrite (RouteFacts.served_unreadable World searchRecords completions_create
               JSON_parse PINECONE_INDEX_NAME env_PINECONE_NAMESPACE w)
  | destruct (falsy (latestUserMessage messages)) eqn:Hg;
    [ rewrite (RouteFacts.served_guarded World searchRecords completions_create
                 JSON_parse PINECONE_INDEX_NAME env_PINECONE_NAMESPACE messages w Hg)
    | destruct (search_of messages w) as [[e|search] w1] eqn:Hs;
      [ rewrite (RouteFacts.served_search_throws World searchRecords completions_create
                   JSON_parse PINECONE_INDEX_NAME env_PINECONE_NAMESPACE
                   messages w e w1 Hg Hs)
      | destruct (completions_create (params_of messages search) w1)
          as [[e|completion] w2] eqn:Hc;
        [ rewrite (RouteFacts.served_create_throws World searchRecords completions_create
                     JSON_parse PINECONE_INDEX_NAME env_PINECONE_NAMESPACE
                     messages w search w1 e w2 Hg Hs Hc)
        | rewrite (RouteFacts.served_completed World searchRecords completions_create
                     JSON_parse PINECONE_INDEX_NAME env_PINECONE_NAMESPACE
                     messages w search w1 completion w2 Hg Hs Hc);
          destruct (completion_text completion) as [e|text] eqn:Ht ] ] ]
  | rewrite (RouteFacts.served_no_messages World searchRecords completions_create
               JSON_parse PINECONE_INDEX_NAME env_PINECONE_NAMESPACE w) ].

(** X1.  Whatever the request and whatever the collaborators do, the
    handler answers (it lets nothing escape) with status 200, 400 or 500.
    A 500 answer carries the apology object and is logged once, as the
    last thing the handler does, and what is logged is the value that was
    thrown: by the search, by the generation call, or by the reading of the
    first choice.  No other answer logs anything. *)
Theorem answers_and_logs (req : Request) (w : World) :
  exists answer made,
    served req w = (inr answer, made) /\
    (status answer = 200 \/ status answer = 400 \/ status answer = 500)%Z /\
    (status answer = 500%Z ->
     body answer = error_apology /\
     exists before e,
       made = before ++ [ERROR e] /\
       filter is_console before = [] /\
       forall messages,
         req = Body (Some messages) ->
         (forall e' w1, search_of messages w = (inl e', w1) -> e = e') /\
         (forall search w1 e' w2,
             search_of messages w = (inr search, w1) ->
             completions_create (params_of messages search) w1 = (inl e', w2) ->
             e = e') /\
         (forall search w1 completion w2 e',
             search_of messages w = (inr search, w1) ->
             completions_create (params_of messages search) w1 = (inr completion, w2) ->
             completion_text completion = inl e' ->
             e = e')) /\
    (status answer <> 500%Z -> filter is_console made = []).
Proof.
  paths req w; eexists; eexists; (split; [reflexivity|]);
    (split; [cbn; auto|]); split; intros Hst; cbn in Hst; try discriminate;
    try contradiction; try reflexivity.
  - split; [reflexivity|]. exists [], (SyntaxError "request body").
    split; [reflexivity|]. split; [reflexivity|]. intros ? Hreq. discriminate Hreq.
  - split; [reflexivity|]. exists [SEARCH messages], e.
    split; [reflexivity|]. split; [reflexivity|].
    intros ? [= <-]. repeat split; intros; congruence.
  - split; [reflexivity|]. exists [SEARCH messages; CREATE messages search], e.
    split; [reflexivity|]. split; [reflexivity|].
    intros ? [= <-]. repeat split; intros; congruence.
  - split; [reflexivity|]. exists [SEARCH messages; CREATE messages search], e.
    split; [reflexivity|]. split; [reflexivity|].
    intros ? [= <-]. repeat split; intros; congruence.
Qed.


(** X3.  One attempt, in order: a request causes at most one search and at most
    one generation call.  A search, when made, is the first call, on the
    configured index and a namespace that is never empty, for the five best
    matches; a generation call, when made, directly follows the search. *)
Theorem calls_once_in_order (req : Request) (w : World) :
  (length (filter is_search (snd (served req w))) <= 1 /\
   length (filter is_create (snd (served req w))) <= 1) /\
  (forall index namespace query,
      In (SearchRecords index namespace query) (snd (served req w)) ->
      index = PINECONE_INDEX_NAME /\ namespace = NAMESPACE /\ namespace <> "" /\
      topK query = 5 /\
      exists rest, snd (served req w) = SearchRecords index namespace query :: rest) /\
  (forall params,
      In (CompletionsCreate params) (snd (served req w)) ->
      exists search rest,
        snd (served req w) = search :: CompletionsCreate params :: rest /\
        is_search search = true).
Proof.
  pose proof (proj1 (namespace_never_empty env_PINECONE_NAMESPACE)) as Hns.
  paths req w; cbn [snd]; (split; [cbn; lia|]); split;
    try (intros ? ? ? Hin); try (intros ? Hin); cbn [In] in Hin;
    repeat match goal with
           | H : _ \/ _ |- _ => destruct H as [H | H]
           | H : False |- _ => contradiction
           | H : SearchRecords _ _ _ = SearchRecords _ _ _ |- _ =>
               injection H as <- <- <-
           | H : CompletionsCreate _ = CompletionsCreate _ |- _ => injection H as <-
           | H : _ = _ |- _ => discriminate H
           end;
    try (repeat split; eauto; fail);
    eexists; eexists; split; reflexivity.
Qed.

(** X4.  The generation request carries the whole history: whenever the handler
    calls the generation service for a history, the model, the output
    format and the temperature are the fixed ones, and the prompt is the
    persona message, the snippets message (header and a context block that
    is not empty), then every message of the history unchanged and in
    order, then the format instructions. *)
Theorem generation_request_carries_history
    (messages : list ChatMessage) (w : World) (params : CreateParams) :
  In (CompletionsCreate params) (snd (served (Body (Some messages)) w)) ->
  model params = "gpt-4.1-mini" /\
  response_format params = "json_object" /\
  temperature params = Qmake 6 10 /\
  exists context,
    context <> "" /\
    prompt params =
    {| role := system; content := KOA_SYSTEM_PROMPT |}
    :: {| role := system; content := SNIPPETS_HEADER ++ context |}
    :: messages ++ [ {| role := system; content := JSON_SHAPE_INSTRUCTIONS |} ].
Proof.
  assert (Hshape : forall search,
    params = params_of messages search ->
    model params = "gpt-4.1-mini" /\
    response_format params = "json_object" /\
    temperature params = Qmake 6 10 /\
    exists context,
      context <> "" /\
      prompt params =
      {| role := system; content := KOA_SYSTEM_PROMPT |}
      :: {| role := system; content := SNIPPETS_HEADER ++ context |}
      :: messages ++ [ {| role := system; content := JSON_SHAPE_INSTRUCTIONS |} ]).
  { intros search ->. split; [reflexivity|]. split; [reflexivity|].
    split; [reflexivity|].
    exists (contextForModel (records_of search)).
    split; [apply contextForModel_nonempty|].
    unfold create_params. cbn [prompt]. rewrite history_copied. reflexivity. }
  destruct (falsy (latestUserMessage messages)) eqn:Hg.
  - rewrite (RouteFacts.served_guarded World searchRecords completions_create
               JSON_parse PINECONE_INDEX_NAME env_PINECONE_NAMESPACE messages w Hg).
    intros [].
  - destruct (search_of messages w) as [[e|search] w1] eqn:Hs.
    + rewrite (RouteFacts.served_search_throws World searchRecords completions_create
                 JSON_parse PINECONE_INDEX_NAME env_PINECONE_NAMESPACE
                 messages w e w1 Hg Hs).
      cbn [snd In]. intros [H | [H | []]]; discriminate H.
    + assert (Hin : forall rest,
        Forall (fun c => is_create c = false) rest ->
        In (CompletionsCreate params) (SEARCH messages :: CREATE messages search :: rest) ->
        params = params_of messages search).
      { intros rest Hrest [H | [H | H]]; [discriminate H | now injection H |].
        rewrite Forall_forall in Hrest. apply Hrest in H. discriminate H. }
      destruct (completions_create (params_of messages search) w1)
        as [[e|completion] w2] eqn:Hc.
      * rewrite (RouteFacts.served_create_throws World searchRecords completions_create
                   JSON_parse PINECONE_INDEX_NAME env_PINECONE_NAMESPACE
                   messages w search w1 e w2 Hg Hs Hc).
        cbn [snd]. intros H. apply (Hshape search), (Hin [ERROR e]); [|exact H].
        now repeat constructor.
      * rewrite (RouteFacts.served_completed World searchRecords completions_create
                   JSON_parse PINECONE_INDEX_NAME env_PINECONE_NAMESPACE
                   messages w search w1 completion w2 Hg Hs Hc).
        destruct (completion_text completion) as [e|text]; cbn [snd]; intros H.
        -- apply (Hshape search), (Hin [ERROR e]); [|exact H]. now repeat constructor.
        -- apply (Hshape search), (Hin []); [|exact H]. constructor.
Qed.

(** X5.  A 200 answer is made of what the generation service said: it
    follows one search and one generation call that both answered, and its
    body is what [JSON.parse] read from the text of the completion that
    call returned (the content of its first choice, or "{}" in its place),
    as JSON writes it, or the fallback object when [JSON.parse] rejected
    that text.  The handler adds nothing to it and checks nothing in it. *)
Theorem success_body_from_completion
    (req : Request) (w : World) (answer : Response) (made : list Call) :
  served req w = (inr answer, made) ->
  status answer = 200%Z ->
  exists messages search w1 completion w2 text,
    req = Body (Some messages) /\
    search_of messages w = (inr search, w1) /\
    completions_create (params_of messages search) w1 = (inr completion, w2) /\
    made = [SEARCH messages; CREATE messages search] /\
    completion_text completion = inr text /\
    text <> "" /\
    ((exists v, JSON_parse text = Some v /\ body answer = as_json v) \/
     JSON_parse text = None /\ body answer = parse_fallback).
Proof.
  paths req w; intros Hrun Hst; injection Hrun as <- <-; try discriminate Hst.
  exists messages, search, w1, completion, w2, text.
  split; [reflexivity|]. split; [exact Hs|]. split; [exact Hc|].
  split; [reflexivity|]. split; [exact Ht|]. split.
  - unfold completion_text in Ht. destruct (choices completion); [discriminate|].
    cbv zeta in Ht. injection Ht as <-. apply or_else_default. discriminate.
  - destruct (JSON_parse text) as [v|]; [left; now exists v | now right].
Qed.

End Paths.

(** *** On concrete requests *)

Lemma answers_and_logs_witness :
  exists answer made,
    demo (inl (UpstreamError "index unreachable")) (inr (completion_of (Some "{}")))
      (Body (Some greeting)) = (inr answer, made) /\
    status answer = 500%Z /\
    body answer = error_apology /\
    exists before,
      made = before ++ [ConsoleError "Koa backend error:" (UpstreamError "index unreachable")] /\
      filter is_console before = [].
Proof.
  destruct (answers_and_logs nat
              (stub_store (inl (UpstreamError "index unreachable")))
              (stub_openai (inr (completion_of (Some "{}"))))
              JSONRef.JSON_parse "koa-practices" None (Body (Some greeting)) 0)
    as (answer & made & Hrun & _ & H500 & _).
  assert (Hst : status answer = 500%Z).
  { vm_compute in Hrun. injection Hrun as <- _. reflexivity. }
  destruct (H500 Hst) as (Hbody & before & e & Hmade & Hbefore & Hcause).
  destruct (Hcause greeting eq_refl) as (Hsearch & _ & _).
  pose proof (Hsearch (UpstreamError "index unreachable") 1 eq_refl) as He.
  exists answer, made. split; [exact Hrun|]. split; [exact Hst|]. split; [exact Hbody|].
  exists before. rewrite <- He. split; [exact Hmade | exact Hbefore].
Defined.


Lemma calls_once_in_order_witness :
  In (demo_search two_user_history)
     (snd (demo (inr three_records) (inr (completion_of (Some "{}")))
             (Body (Some two_user_history)))) /\
  exists rest,
    snd (demo (inr three_records) (inr (completion_of (Some "{}")))
           (Body (Some two_user_history))) =
    SearchRecords "koa-practices" "default"
      {| topK := 5; inputs_text := "I can not focus" |} :: rest.
Proof.
  assert (Hin : In (demo_search two_user_history)
                   (snd (demo (inr three_records) (inr (completion_of (Some "{}")))
                           (Body (Some two_user_history)))))
    by (left; reflexivity).
  split; [exact Hin|].
  exact (proj2 (proj2 (proj2 (proj2
           (proj1 (proj2 (calls_once_in_order nat
                            (stub_store (inr three_records))
                            (stub_openai (inr (completion_of (Some "{}"))))
                            JSONRef.JSON_parse "koa-practices" None
                            (Body (Some two_user_history)) 0))
              "koa-practices" "default"
              {| topK := 5; inputs_text := "I can not focus" |} Hin))))).
Defined.

Lemma success_body_from_completion_witness :
  demo (inr no_records) (inr (completion_of (Some "[1e400]"))) (Body (Some greeting)) =
  (inr {| status := 200; body := JArr [JNull] |},
   [demo_search greeting; CompletionsCreate (demo_params greeting no_records)]) /\
  exists completion text,
    stub_openai (inr (completion_of (Some "[1e400]"))) (demo_params greeting no_records) 1 =
    (inr completion, 2) /\
    completion_text completion = inr text /\
    ((exists v, JSONRef.JSON_parse text = Some v /\ JArr [JNull] = as_json v) \/
     JSONRef.JSON_parse text = None /\ JArr [JNull] = parse_fallback).
Proof.
  assert (Hrun : demo (inr no_records) (inr (completion_of (Some "[1e400]")))
                   (Body (Some greeting)) =
                 (inr {| status := 200; body := JArr [JNull] |},
                  [demo_search greeting;
                   CompletionsCreate (demo_params greeting no_records)]))
    by (vm_compute; reflexivity).
  split; [exact Hrun|].
  destruct (success_body_from_completion nat
              (stub_store (inr no_records))
              (stub_openai (inr (completion_of (Some "[1e400]"))))
              JSONRef.JSON_parse "koa-practices" None
              (Body (Some greeting)) 0
              {| status := 200; body := JArr [JNull] |}
              [demo_search greeting; CompletionsCreate (demo_params greeting no_records)]
              Hrun eq_refl)
    as (messages & search & w1 & completion & w2 & text
        & Hreq & Hs & Hc & _ & Ht & _ & Hbody).
  injection Hreq as <-. cbn in Hs. injection Hs as <- <-.
  exists completion, text. cbn in Hc. injection Hc as <- <-.
  split; [reflexivity|]. split; [exact Ht | exact Hbody].
Defined.

Lemma generation_request_carries_history_witness :
  In (CompletionsCreate (demo_params two_user_history three_records))
     (snd (demo (inr three_records) (inr (completion_of (Some "{}")))
             (Body (Some two_user_history)))) /\
  exists context,
    context <> "" /\
    prompt (demo_params two_user_history three_records) =
    {| role := system; content := KOA_SYSTEM_PROMPT |}
    :: {| role := system; content := SNIPPETS_HEADER ++ context |}
    :: two_user_history ++ [ {| role := system; content := JSON_SHAPE_INSTRUCTIONS |} ].
Proof.
  assert (Hin : In (CompletionsCreate (demo_params two_user_history three_records))
                   (snd (demo (inr three_records) (inr (completion_of (Some "{}")))
                           (Body (Some two_user_history)))))
    by (right; left; reflexivity).
  split; [exact Hin|].
  exact (proj2 (proj2 (proj2
           (generation_request_carries_history nat
              (stub_store (inr three_records))
              (stub_openai (inr (completion_of (Some "{}"))))
              JSONRef.JSON_parse "koa-practices" None
              two_user_history 0 (demo_params two_user_history three_records) Hin)))).
Defined.

End RouteMore.

(* ===================================================================== *)
(** ** More about the chat page *)
(* ===================================================================== *)

Module PageMore.
Import JS Page Spec Terms Render JSFacts.

(** *** One step of a page in use *)

Lemma resume_runs (res : FetchResult) (now : Z) (st : State) :
  run (resume res now) st =
  {| messages := messages st ++ [reply res now];
     input := input st;
     isLoading := false |}.
Proof. unfold resume, reply. apply PageFacts.resumed. Qed.

Lemma start_eq (p : Page) (text : string) (now : Z) :
  in_step p ->
  start p text now =
  if falsy (trim text) || isLoading (state p) then p
  else {| state := {| messages := messages (state p) ++ [userMsg now (trim text)];
                      input := "";
                      isLoading := true |};
          suspended := [resume] |}.
Proof.
  unfold in_step, start, sendMessage. intros Hinv.
  destruct (falsy (trim text)); [reflexivity|].
  destruct (isLoading (state p)); [reflexivity|].
  cbn. now rewrite Hinv.
Qed.

Lemma settle_eq (p : Page) (res : FetchResult) (now : Z) :
  in_step p ->
  step p (Settle res now) =
  if isLoading (state p)
  then {| state := {| messages := messages (state p) ++ [reply res now];
                      input := input (state p);
                      isLoading := false |};
          suspended := [] |}
  else p.
Proof.
  unfold in_step. intros Hinv. cbn [step]. rewrite Hinv.
  destruct (isLoading (state p)); [|reflexivity].
  now rewrite resume_runs.
Qed.

Lemma submit_eq (p : Page) (ev : Event) (text : string) :
  submits p ev text -> exists now, step p ev = start p text now.
Proof.
  intros [(now & ->) | (now & -> & <-)]; exists now; reflexivity.
Qed.

Lemma step_in_step (p : Page) (ev : Event) : in_step p -> in_step (step p ev).
Proof.
  intros Hinv.
  assert (Hstart : forall text now, in_step (start p text now)).
  { intros text now. rewrite (start_eq p text now Hinv).
    destruct (falsy (trim text) || isLoading (state p)); [exact Hinv | reflexivity]. }
  destruct ev as [now | text now | value | res now].
  - apply Hstart.
  - apply Hstart.
  - exact Hinv.
  - rewrite (settle_eq p res now Hinv).
    destruct (isLoading (state p)); [reflexivity | exact Hinv].
Qed.

Lemma steps_in_step (evs : list Event) (p : Page) :
  in_step p -> in_step (steps p evs).
Proof.
  revert p. induction evs as [|ev evs IH]; intros p Hinv; [exact Hinv|].
  apply (IH (step p ev)), step_in_step, Hinv.
Qed.

Lemma reachable_in_step (evs : list Event) : in_step (steps initialPage evs).
Proof. apply steps_in_step. reflexivity. Qed.

(** An invariant of the steps holds on every reachable page. *)
Lemma reachable_ind (P : Page -> Prop) :
  P initialPage ->
  (forall p ev, in_step p -> P p -> P (step p ev)) ->
  forall evs, P (steps initialPage evs).
Proof.
  intros Hinit Hstep evs.
  induction evs as [|ev evs IH] using rev_ind; [exact Hinit|].
  rewrite PageFacts.steps_snoc. apply Hstep; [apply reachable_in_step | exact IH].
Qed.

(** *** One request at a time *)

(** X9.  On every reachable page at most one request is pending, and the
    loading flag, the typing row and the disabled send button (labelled
    "Sending…") are there exactly while one is. *)
Theorem pending_request_shown (evs : list Event) :
  length (suspended (steps initialPage evs)) <= 1 /\
  (suspended (steps initialPage evs) <> [] <->
   isLoading (state (steps initialPage evs)) = true) /\
  typing (render (state (steps initialPage evs))) =
    isLoading (state (steps initialPage evs)) /\
  send_disabled (render (state (steps initialPage evs))) =
    isLoading (state (steps initialPage evs)) /\
  (send_label (render (state (steps initialPage evs))) = "Sending…" <->
   suspended (steps initialPage evs) <> []).
Proof.
  pose proof (reachable_in_step evs) as Hinv. unfold in_step in Hinv.
  unfold render. cbn [typing send_disabled send_label]. rewrite Hinv.
  destruct (isLoading (state (steps initialPage evs))); cbn;
    repeat split; try lia; try congruence; try discriminate;
    intros H; try discriminate; now contradiction H.
Qed.

(** X10.  A submit changes nothing at all (no message, no request, the input
    field kept) exactly when its trimmed text is empty or a request is
    pending. *)
Theorem submit_ignored_iff (evs : list Event) (ev : Event) (text : string) :
  submits (steps initialPage evs) ev text ->
  (step (steps initialPage evs) ev = steps initialPage evs <->
   trim text = "" \/ isLoading (state (steps initialPage evs)) = true).
Proof.
  intros Hsub. destruct (submit_eq _ _ _ Hsub) as (now & ->).
  rewrite (start_eq _ text now (reachable_in_step evs)).
  set (p := steps initialPage evs).
  destruct (falsy (trim text)) eqn:Ht; cbn [orb].
  - apply falsy_true_iff in Ht. split; auto.
  - apply falsy_false_iff in Ht.
    destruct (isLoading (state p)) eqn:Hl.
    + split; auto.
    + split.
      * intros Heq. apply (f_equal (fun q => length (messages (state q)))) in Heq.
        cbn in Heq. rewrite length_app in Heq. cbn in Heq. lia.
      * intros [H | H]; [contradiction | discriminate].
Qed.

(** *** The shape of the conversation *)

Lemma exchanges_snoc (n : nat) :
  exchanges (S n) = exchanges n ++ [user; assistant].
Proof.
  induction n as [|n IH]; [reflexivity|].
  change (user :: assistant :: exchanges (S n) =
          user :: assistant :: (exchanges n ++ [user; assistant])).
  now rewrite <- IH.
Qed.

Lemma reply_is_assistant (res : FetchResult) (now : Z) : role (reply res now) = assistant.
Proof. unfold reply. now destruct (succeeded res). Qed.

(** X11.  On every reachable page the turns alternate: the greeting, then whole
    exchanges (a user turn followed by an assistant turn), then one more
    user turn exactly while its request is pending.  Every user turn gets
    one answer, and no two assistant turns or two user turns are adjacent. *)
Theorem turns_alternate (evs : list Event) :
  exists n,
    map role (messages (state (steps initialPage evs))) =
    assistant :: exchanges n ++
    (if isLoading (state (steps initialPage evs)) then [user] else []).
Proof.
  apply (reachable_ind (fun p =>
    exists n, map role (messages (state p)) =
              assistant :: exchanges n ++ (if isLoading (state p) then [user] else []))).
  - now exists 0.
  - intros p ev Hinv (n & Hroles).
    assert (Hstart : forall text now,
      exists n', map role (messages (state (start p text now))) =
                 assistant :: exchanges n' ++
                 (if isLoading (state (start p text now)) then [user] else [])).
    { intros text now. rewrite (start_eq p text now Hinv).
      destruct (falsy (trim text)); cbn [orb]; [now exists n|].
      destruct (isLoading (state p)) eqn:Hl; [exists n; now rewrite Hl|].
      exists n. cbn [state messages isLoading]. rewrite map_app, Hroles, app_nil_r.
      reflexivity. }
    destruct ev as [now | text now | value | res now].
    + apply Hstart.
    + apply Hstart.
    + now exists n.
    + rewrite (settle_eq p res now Hinv).
      destruct (isLoading (state p)) eqn:Hl; [|exists n; now rewrite Hl].
      exists (S n). cbn [state messages isLoading].
      rewrite map_app, Hroles, exchanges_snoc, app_nil_r. cbn [map].
      rewrite reply_is_assistant. cbn [app]. now rewrite <- app_assoc.
Qed.

(** Every message on a reachable page is the greeting, a user turn holding
    a trimmed text that is not empty, an assistant turn built from a
    response body, or the fixed error turn. *)
Lemma every_message_has_an_origin (evs : list Event) :
  Forall Origin (messages (state (steps initialPage evs))).
Proof.
  apply (reachable_ind (fun p => Forall Origin (messages (state p)))).
  - repeat constructor.
  - intros p ev Hinv Hall.
    assert (Hstart : forall text now, Forall Origin (messages (state (start p text now)))).
    { intros text now. rewrite (start_eq p text now Hinv).
      destruct (falsy (trim text)) eqn:Ht; cbn [orb]; [exact Hall|].
      destruct (isLoading (state p)); [exact Hall|].
      cbn [state messages]. apply Forall_app. split; [exact Hall|].
      constructor; [|constructor]. constructor. now apply falsy_false_iff. }
    destruct ev as [now | text now | value | res now].
    + apply Hstart.
    + apply Hstart.
    + exact Hall.
    + rewrite (settle_eq p res now Hinv).
      destruct (isLoading (state p)); [|exact Hall].
      cbn [state messages]. apply Forall_app. split; [exact Hall|].
      constructor; [|constructor]. unfold reply.
      destruct (succeeded res); constructor.
Qed.

(** X12.  What is drawn for each message of a reachable page: a user row has no
    avatar and no practice card and shows a text that is not empty; an
    assistant row has the avatar, and has the practice card unless it is
    the fixed error message. *)
Theorem rows_by_origin (evs : list Event) (row : Row) :
  In row (rows (render (state (steps initialPage evs)))) ->
  (row_role row = user ->
   avatar row = false /\ card row = false /\
   exists s, bubble_text row = JStr s /\ s <> "") /\
  (row_role row = assistant ->
   avatar row = true /\
   (card row = false ->
    bubble_text row =
    JStr "Hmm, something went wrong while talking to my brain in the cloud. Can you try again in a moment? 💭")).
Proof.
  unfold render. cbn [rows]. intros Hin. apply in_map_iff in Hin.
  destruct Hin as (msg & <- & Hin).
  pose proof (every_message_has_an_origin evs) as Hall.
  rewrite Forall_forall in Hall. specialize (Hall msg Hin).
  destruct Hall as [| now text Hne | now data | now]; cbn; split;
    try discriminate; intros _; repeat split; try discriminate; eauto.
Qed.

(** *** Message ids *)

Lemma sorted_snoc (l : list Z) (x : Z) :
  StronglySorted Z.lt l -> Forall (fun y => (y < x)%Z) l ->
  StronglySorted Z.lt (l ++ [x]).
Proof.
  induction 1 as [|y l Hs IH Hy]; intros Hlt; cbn.
  - repeat constructor.
  - inversion Hlt as [|? ? Hyx Hlx]; subst. constructor; [now apply IH|].
    apply Forall_app. split; [exact Hy | now repeat constructor].
Qed.

Lemma sorted_nodup (l : list Z) : StronglySorted Z.lt l -> NoDup l.
Proof.
  induction 1 as [|y l _ IH Hy]; constructor; [|exact IH].
  intros Hin. rewrite Forall_forall in Hy. specialize (Hy y Hin). lia.
Qed.

Lemma ids_snoc (p : Page) (m : ChatMessage) (last bound : Z) :
  StronglySorted Z.lt (map id (messages (state p))) ->
  Forall (fun i => (i <= last + 2)%Z) (map id (messages (state p))) ->
  (last + 2 < id m)%Z -> (id m <= bound + 2)%Z ->
  StronglySorted Z.lt (map id (messages (state p) ++ [m])) /\
  Forall (fun i => (i <= bound + 2)%Z) (map id (messages (state p) ++ [m])).
Proof.
  intros Hs Hb Hlow Hhigh. rewrite map_app. cbn [map]. split.
  - apply sorted_snoc; [exact Hs|].
    eapply Forall_impl; [|exact Hb]. cbn. intros; lia.
  - apply Forall_app. split.
    + eapply Forall_impl; [|exact Hb]. cbn. intros; lia.
    + now repeat constructor.
Qed.

Lemma reply_id (res : FetchResult) (now : Z) :
  (now < id (reply res now) <= now + 2)%Z.
Proof. unfold reply. destruct (succeeded res); cbn; lia. Qed.

Lemma ids_sorted_from (evs : list Event) :
  forall (p : Page) (last : Z),
    in_step p ->
    StronglySorted Z.lt (map id (messages (state p))) ->
    Forall (fun i => (i <= last + 2)%Z) (map id (messages (state p))) ->
    readings_spaced p last evs = true ->
    StronglySorted Z.lt (map id (messages (state (steps p evs)))).
Proof.
  induction evs as [|ev evs IH]; intros p last Hinv Hs Hb Hsp; [exact Hs|].
  change (steps p (ev :: evs)) with (steps (step p ev) evs).
  cbn [readings_spaced] in Hsp.
  assert (Hstart : forall text now,
    match (if negb (falsy (trim text) || isLoading (state p)) then Some now else None) with
    | Some now' => (last + 2 <? now')%Z && readings_spaced (start p text now) now' evs
    | None => readings_spaced (start p text now) last evs
    end = true ->
    StronglySorted Z.lt (map id (messages (state (steps (start p text now) evs))))).
  { intros text now. pose proof (step_in_step p (QuickMood text now) Hinv) as Hinv'.
    cbn [step] in Hinv'. revert Hinv'. rewrite (start_eq p text now Hinv).
    destruct (falsy (trim text) || isLoading (state p)); cbn [negb]; intros Hinv' Hrest.
    - now apply (IH p last).
    - apply andb_true_iff in Hrest. destruct Hrest as [Hnow Hrest].
      apply Z.ltb_lt in Hnow.
      destruct (ids_snoc p (userMsg now (trim text)) last now Hs Hb) as [Hs' Hb'];
        cbn; try lia.
      now apply (IH _ now). }
  destruct ev as [now | text now | value | res now].
  - apply Hstart. exact Hsp.
  - apply Hstart. exact Hsp.
  - apply (IH _ last); auto.
  - pose proof (step_in_step p (Settle res now) Hinv) as Hinv'. revert Hinv' Hsp.
    rewrite (settle_eq p res now Hinv). unfold clock_read.
    pose proof Hinv as Hsusp. unfold in_step in Hsusp. rewrite Hsusp.
    destruct (isLoading (state p)); intros Hinv' Hsp.
    + apply andb_true_iff in Hsp. destruct Hsp as [Hnow Hrest]. apply Z.ltb_lt in Hnow.
      pose proof (reply_id res now) as Hid.
      destruct (ids_snoc p (reply res now) last now Hs Hb) as [Hs' Hb']; try lia.
      now apply (IH _ now).
    + now apply (IH p last).
Qed.

(** X13.  Message ids serve as React keys.  If every reading of
    [Date.now()] (by a submit that passes the guard and by a settling
    request) comes more than two milliseconds after the previous one, and
    the first one after time 1, the ids grow strictly along the list, so
    the keys of the rendered rows are pairwise distinct. *)
Theorem keys_distinct_when_spaced (evs : list Event) :
  readings_spaced initialPage (-1) evs = true ->
  StronglySorted Z.lt (map id (messages (state (steps initialPage evs)))) /\
  NoDup (map key (rows (render (state (steps initialPage evs))))).
Proof.
  intros Hsp.
  assert (Hs : StronglySorted Z.lt (map id (messages (state (steps initialPage evs))))).
  { apply (ids_sorted_from evs initialPage (-1)); [reflexivity | | | exact Hsp].
    - repeat constructor.
    - constructor; [cbn; lia | constructor]. }
  split; [exact Hs|].
  unfold render. cbn [rows]. rewrite map_map. cbn [render_row key].
  now apply sorted_nodup.
Qed.

(** Without the spacing two rows can share a key: a text submitted one
    millisecond after the previous answer arrived gets the answer's id. *)
Example keys_can_collide :
  map id (messages (state (steps initialPage
            [QuickMood "a" 1000; Settle (Responded 200 (Some (JObj []))) 1000;
             QuickMood "b" 1001]))) =
  [1; 1000; 1001; 1001]%Z.
Proof. reflexivity. Qed.

(** *** What the page reads of a response *)

Lemma assistantText_reads (d1 d2 : json) :
  opt_get d1 "message" = opt_get d2 "message" ->
  opt_get d1 "content" = opt_get d2 "content" ->
  assistantText d1 = assistantText d2.
Proof. unfold assistantText. now intros -> ->. Qed.

(** X14.  Of a response body the page reads the [message] and the [content]
    property and nothing else: two bodies that agree on these two leave a
    reachable page in the same state, whatever [reply], [miniPractice] or
    other properties they carry. *)
Theorem body_read_through_two_fields
    (evs : list Event) (status : Z) (d1 d2 : json) (now : Z) :
  opt_get d1 "message" = opt_get d2 "message" ->
  opt_get d1 "content" = opt_get d2 "content" ->
  step (steps initialPage evs) (Settle (Responded status (Some d1)) now) =
  step (steps initialPage evs) (Settle (Responded status (Some d2)) now).
Proof.
  intros Hm Hc. rewrite !(settle_eq _ _ _ (reachable_in_step evs)).
  destruct (isLoading (state (steps initialPage evs))); [|reflexivity].
  unfold reply. cbn [succeeded]. destruct (ok status); [|reflexivity].
  unfold assistantMsg. now rewrite (assistantText_reads d1 d2 Hm Hc).
Qed.

(** *** On concrete sessions *)

Lemma pending_request_shown_witness :
  send_label (render (state (steps initialPage [QuickMood "hello" 1000]))) = "Sending…" /\
  isLoading (state (steps initialPage [QuickMood "hello" 1000])) = true /\
  length (suspended (steps initialPage [QuickMood "hello" 1000])) <= 1.
Proof.
  destruct (pending_request_shown [QuickMood "hello" 1000])
    as (Hlen & Hflag & _ & _ & Hlabel).
  assert (Hpending : suspended (steps initialPage [QuickMood "hello" 1000]) <> [])
    by discriminate.
  split; [exact (proj2 Hlabel Hpending)|].
  split; [exact (proj1 Hflag Hpending) | exact Hlen].
Defined.

Lemma submit_ignored_iff_witness :
  submits (steps initialPage [QuickMood "hello" 1000; Change "again"]) (Send 1500) "again" /\
  step (steps initialPage [QuickMood "hello" 1000; Change "again"]) (Send 1500) =
  steps initialPage [QuickMood "hello" 1000; Change "again"].
Proof.
  assert (Hsub : submits (steps initialPage [QuickMood "hello" 1000; Change "again"])
                   (Send 1500) "again").
  { right. exists 1500%Z. split; reflexivity. }
  split; [exact Hsub|].
  apply (proj2 (submit_ignored_iff [QuickMood "hello" 1000; Change "again"]
                  (Send 1500) "again" Hsub)).
  right. reflexivity.
Defined.

Lemma rows_by_origin_witness :
  In (render_row (errorMsg 2000))
     (rows (render (state (steps initialPage
                             [QuickMood "hello" 1000; Settle (Rejected "offline") 2000])))) /\
  avatar (render_row (errorMsg 2000)) = true /\
  card (render_row (errorMsg 2000)) = false.
Proof.
  assert (Hin : In (render_row (errorMsg 2000))
                   (rows (render (state (steps initialPage
                      [QuickMood "hello" 1000; Settle (Rejected "offline") 2000])))))
    by (right; right; left; reflexivity).
  split; [exact Hin|].
  split; [|reflexivity].
  exact (proj1 (proj2 (rows_by_origin
                         [QuickMood "hello" 1000; Settle (Rejected "offline") 2000]
                         (render_row (errorMsg 2000)) Hin) eq_refl)).
Defined.

(** A session in which a click refused by the guard falls one millisecond
    after the submit: it reads no clock and does not count. *)
Lemma keys_distinct_when_spaced_witness :
  readings_spaced initialPage (-1)
    [QuickMood "hello" 1000; QuickMood "hello" 1001; Change "x";
     Settle (Responded 200 None) 2000; Send 3000] = true /\
  NoDup (map key (rows (render (state (steps initialPage
           [QuickMood "hello" 1000; QuickMood "hello" 1001; Change "x";
            Settle (Responded 200 None) 2000; Send 3000]))))).
Proof.
  split; [reflexivity|].
  exact (proj2 (keys_distinct_when_spaced
                  [QuickMood "hello" 1000; QuickMood "hello" 1001; Change "x";
                   Settle (Responded 200 None) 2000; Send 3000] eq_refl)).
Defined.

Lemma body_read_through_two_fields_witness :
  opt_get (Route.reply_object "Take three slow breaths.") "message" =
  opt_get (JObj [("reply", JStr "Look out of the window.");
                 ("miniPractice", JObj [("title", JStr "Window gazing")])]) "message" /\
  step (steps initialPage [QuickMood "hello" 1000])
       (Settle (Responded 200 (Some (Route.reply_object "Take three slow breaths."))) 2000) =
  step (steps initialPage [QuickMood "hello" 1000])
       (Settle (Responded 200
                  (Some (JObj [("reply", JStr "Look out of the window.");
                               ("miniPractice", JObj [("title", JStr "Window gazing")])])))
               2000).
Proof.
  split; [reflexivity|].
  exact (body_read_through_two_fields [QuickMood "hello" 1000] 200
           (Route.reply_object "Take three slow breaths.")
           (JObj [("reply", JStr "Look out of the window.");
                  ("miniPractice", JObj [("title", JStr "Window gazing")])])
           2000 eq_refl eq_refl).
Defined.

End PageMore.

(* ===================================================================== *)
(** ** The page and the route together *)
(* ===================================================================== *)

Module EndToEnd.
Import JS Spec Terms JSFacts.

Lemma messages_of_app (a b : list Page.PayloadMessage) (l : list Route.ChatMessage) :
  Wire.messages_of (a ++ b) = Some l ->
  exists la lb,
    Wire.messages_of a = Some la /\ Wire.messages_of b = Some lb /\ l = la ++ lb.
Proof.
  revert l. induction a as [|m a IH]; intros l; cbn [app Wire.messages_of].
  - intros Hb. exists [], l. now repeat split.
  - destruct (Wire.message_of m) as [m'|]; [|discriminate].
    destruct (Wire.messages_of (a ++ b)) as [rest|] eqn:Hrest; [|discriminate].
    intros [= <-]. destruct (IH rest eq_refl) as (la & lb & -> & Hb & ->).
    exists (m' :: la), lb. now repeat split.
Qed.

Lemma messages_of_length (a : list Page.PayloadMessage) (l : list Route.ChatMessage) :
  Wire.messages_of a = Some l -> length l = length a.
Proof.
  revert l. induction a as [|m a IH]; intros l; cbn [Wire.messages_of].
  - now intros [= <-].
  - destruct (Wire.message_of m); [|discriminate].
    destruct (Wire.messages_of a) as [rest|]; [|discriminate].
    intros [= <-]. cbn. now rewrite (IH rest eq_refl).
Qed.

Section Together.

Variable World : Type.
Variable searchRecords :
  string -> string -> Route.SearchQuery -> World -> (Route.Exn + Route.SearchResponse) * World.
Variable completions_create :
  Route.CreateParams -> World -> (Route.Exn + Route.Completion) * World.
Variable JSON_parse : string -> option json.
Variable PINECONE_INDEX_NAME : string.
Variable env_PINECONE_NAMESPACE : option string.

Local Abbreviation served :=
  (Route.serve searchRecords completions_create JSON_parse
     PINECONE_INDEX_NAME env_PINECONE_NAMESPACE).

(** X15.  A request the page sends is never refused: when [sendMessage] passes
    its guard and its payload reads back as a history, that history has one
    message per turn of the page plus the new user turn, the route does not
    answer 400, and the first thing it does is to search the store for the
    trimmed text the user submitted. *)
Theorem page_request_reaches_store
    (messages : list Page.ChatMessage) (text : string) (t0 : Z)
    (history : list Route.ChatMessage) (w : World) :
  trim text <> "" ->
  Wire.messages_of
    (map Page.to_payload (messages ++ [Page.userMsg t0 (trim text)])) = Some history ->
  exists sent,
    Page.sendMessage messages false text t0 = Some sent /\
    Wire.request_of (Page.payloadMessages sent) = Some (Route.Body (Some history)) /\
    length history = S (length messages) /\
    exists answer rest,
      served (Route.Body (Some history)) w =
      (inr answer,
       Route.SearchRecords PINECONE_INDEX_NAME
         (Route.PINECONE_NAMESPACE env_PINECONE_NAMESPACE)
         {| Route.topK := 5; Route.inputs_text := trim text |} :: rest) /\
      Route.status answer <> 400%Z.
Proof.
  intros Hne Hwire.
  destruct (PageFacts.sendMessage_sent messages text t0 Hne)
    as (sent & Hsent & _ & Hpayload & _).
  exists sent. split; [exact Hsent|]. split; [|split].
  - unfold Wire.request_of. now rewrite Hpayload, Hwire.
  - rewrite (messages_of_length _ _ Hwire), length_map, length_app. cbn. lia.
  - rewrite map_app in Hwire.
    destruct (messages_of_app _ _ _ Hwire) as (la & lb & _ & Hb & ->).
    cbn in Hb. injection Hb as <-.
    assert (Hlast : LastUser (la ++ [ {| Route.role := Route.user;
                                          Route.content := trim text |} ])
                      {| Route.role := Route.user; Route.content := trim text |}).
    { exists la, []. repeat split. constructor. }
    pose proof (RouteFacts.latestUserMessage_last _ _ Hlast) as Hq. cbn in Hq.
    assert (Hg : falsy (Route.latestUserMessage
                          (la ++ [ {| Route.role := Route.user;
                                      Route.content := trim text |} ])) = false).
    { rewrite Hq. now apply falsy_false_iff. }
    destruct (RouteFacts.served_past_guard World searchRecords completions_create
                JSON_parse PINECONE_INDEX_NAME env_PINECONE_NAMESPACE _ w Hg)
      as (answer & rest & Hrun & Hst & _).
    exists answer, rest. rewrite Hq in Hrun. split; [exact Hrun|].
    destruct Hst as [-> | ->]; discriminate.
Qed.

End Together.

Lemma page_request_reaches_store_witness :
  trim "  I'm tired and low on energy. " <> "" /\
  Wire.messages_of
    (map Page.to_payload
       ([Page.initialAssistantMessage] ++
        [Page.userMsg 1000 (trim "  I'm tired and low on energy. ")])) =
  Some (turns [ (Route.assistant,
                 "Hey, I'm Koa 🐨. Tell me how you're feeling in a line or two, and I'll suggest a tiny 1–2 minute practice to help you reset.");
                (Route.user, "I'm tired and low on energy.") ]) /\
  exists sent,
    Page.sendMessage [Page.initialAssistantMessage] false
      "  I'm tired and low on energy. " 1000 = Some sent /\
    exists answer rest,
      demo (inr three_records) (inr (Route.completion_of (Some "{}")))
        (Route.Body (Some (turns [ (Route.assistant,
                 "Hey, I'm Koa 🐨. Tell me how you're feeling in a line or two, and I'll suggest a tiny 1–2 minute practice to help you reset.");
                (Route.user, "I'm tired and low on energy.") ]))) =
      (inr answer,
       Route.SearchRecords "koa-practices" "default"
         {| Route.topK := 5; Route.inputs_text := "I'm tired and low on energy." |} :: rest) /\
      Route.status answer <> 400%Z.
Proof.
  assert (Hne : trim "  I'm tired and low on energy. " <> "") by discriminate.
  split; [exact Hne|]. split; [reflexivity|].
  destruct (page_request_reaches_store nat
              (Route.stub_store (inr three_records))
              (Route.stub_openai (inr (Route.completion_of (Some "{}"))))
              JSONRef.JSON_parse "koa-practices" None
              [Page.initialAssistantMessage] "  I'm tired and low on energy. " 1000
              (turns [ (Route.assistant,
                 "Hey, I'm Koa 🐨. Tell me how you're feeling in a line or two, and I'll suggest a tiny 1–2 minute practice to help you reset.");
                (Route.user, "I'm tired and low on energy.") ])
              0 Hne eq_refl)
    as (sent & Hsent & _ & _ & Hrun).
  exists sent. split; [exact Hsent | exact Hrun].
Defined.

End EndToEnd.
